(** * The recursive archive crawler of [proprocessing/01_scrape.py]

    A shallow embedding of [download_recursive] and of the Python library
    calls it makes, followed by the properties of the crawl: which entries
    of a listing are processed, where files land in the local mirror, when a
    download is skipped, how exceptions travel, and how deep the recursion
    goes. *)

From Stdlib Require Import Ascii String.
From Stdlib.Strings Require Import Byte.
From stdpp Require Import base option list strings gmap.

Set Warnings "-register-all".
Local Open Scope string_scope.

(** ** Python string operations used by the crawler *)

Module PyStr.

Definition slash : ascii := "/"%char.
Definition newline : ascii := "010"%char.

Definition is_slash (c : ascii) : bool := Ascii.eqb c slash.

(** [s.startswith("/")] *)
Definition startswith_slash (s : string) : bool :=
  match s with
  | String c _ => is_slash c
  | EmptyString => false
  end.

(** [s.endswith("/")] *)
Fixpoint endswith_slash (s : string) : bool :=
  match s with
  | EmptyString => false
  | String c EmptyString => is_slash c
  | String _ r => endswith_slash r
  end.

(** [s.lstrip("/")]: every leading separator is removed. *)
Fixpoint lstrip_slash (s : string) : string :=
  match s with
  | String c r => if is_slash c then lstrip_slash r else s
  | EmptyString => EmptyString
  end.

(** [s.rstrip("/")]: every trailing separator is removed. *)
Fixpoint rstrip_slash (s : string) : string :=
  match s with
  | EmptyString => EmptyString
  | String c r =>
      match rstrip_slash r with
      | EmptyString => if is_slash c then EmptyString else String c EmptyString
      | r' => String c r'
      end
  end.

(** [s.strip("/")]: separators are removed at both ends, as many as there
    are. *)
Definition strip_slash (s : string) : string := lstrip_slash (rstrip_slash s).

(** [s[:-1]], the string without its last character. *)
Fixpoint drop_last (s : string) : string :=
  match s with
  | EmptyString => EmptyString
  | String _ EmptyString => EmptyString
  | String c r => String c (drop_last r)
  end.

(** A name without any separator in it. *)
Fixpoint no_slash (s : string) : bool :=
  match s with
  | EmptyString => true
  | String c r => negb (is_slash c) && no_slash r
  end.

End PyStr.

(** ** [os.path.join] (posixpath) for two arguments *)

Module OsPath.
Import PyStr.

(** [posixpath.join(a, b)]: an absolute [b] replaces [a]; otherwise [b] is
    appended, with a separator unless [a] is empty or already ends with
    one. *)
Definition join (a b : string) : string :=
  if startswith_slash b then b
  else if (String.eqb a "" || endswith_slash a)%bool then a +:+ b
  else a +:+ "/" +:+ b.

End OsPath.

(** ** The compiled pattern [re.compile(r".*extent_v4.0.tif$")] *)

Module Pattern.
Import PyStr.

(** One position of the fixed part of the pattern: a literal character or
    the wildcard [.], which matches every character but a newline. *)
Inductive item := Lit (c : ascii) | Dot.

Definition item_matches (i : item) (c : ascii) : bool :=
  match i with
  | Lit d => Ascii.eqb c d
  | Dot => negb (Ascii.eqb c newline)
  end.

(** The part after [.*]: [extent_v4.0.tif], whose two dots are wildcards. *)
Definition fixed_part : list item :=
  (Lit <$> list_ascii_of_string "extent_v4") ++ [Dot; Lit "0"%char; Dot]
    ++ (Lit <$> list_ascii_of_string "tif").

(** Matches the items in sequence at the head of [s] and returns what is
    left of [s]. *)
Fixpoint match_items (items : list item) (s : string) : option string :=
  match items, s with
  | [], _ => Some s
  | i :: items', String c r =>
      if item_matches i c then match_items items' r else None
  | _ :: _, EmptyString => None
  end.

(** [$] without [re.MULTILINE]: the end of the string, or just before a
    newline that is the last character. *)
Definition at_end (s : string) : bool :=
  (String.eqb s "" || String.eqb s (String newline ""))%bool.

Definition fixed_here (s : string) : bool :=
  match match_items fixed_part s with
  | Some rest => at_end rest
  | None => false
  end.

(** [pattern.match(s)] is not [None]: [re.match] anchors at the start, [.*]
    takes any number of non-newline characters, then the fixed part must
    reach the end. *)
Fixpoint pattern_match (s : string) : bool :=
  (fixed_here s ||
   match s with
   | String c r => item_matches Dot c && pattern_match r
   | EmptyString => false
   end)%bool.

End Pattern.

(** ** Exceptions, events and the data exchanged with the libraries *)

(** The Python exceptions that can leave [download_recursive]. Nothing in
    the script catches any of them. *)
Inductive exn :=
| RequestException      (* [requests.get] obtained no response *)
| AttributeError        (* a method looked up on [None] *)
| FileExistsError
| FileNotFoundError
| NotADirectoryError
| IsADirectoryError
| PermissionError.

(** One [<a>] element found by [soup.find_all("a")]: [a_href] is what
    [link.get("href")] returns, [None] when the attribute is absent. *)
Record anchor := Anchor { a_href : option string; a_text : string }.

(** What [requests.get] returns when it returns: the status code, the
    anchors BeautifulSoup finds in [r.text], and the raw body [r.content]. *)
Record response := Response {
  status_code : nat;
  links : list anchor;
  content : list byte
}.

(** The observable calls of a crawl, in program order. [EvList] is the
    [requests.get] of a directory listing, [EvFetch] the one of a file. *)
Inductive event :=
| EvMakedirs (path : string)
| EvList (url : string)
| EvPrint (url : string)
| EvFetch (url : string)
| EvWrite (path : string) (data : list byte).

(** ** The file system interface the crawler uses *)

(** [makedirs] is [os.makedirs(path, exist_ok=True)], [path_exists] is
    [os.path.exists], [write_file] is [open(path, "wb")] followed by
    [f.write(data)]. A failing call returns the exception together with
    the state it leaves behind. [isdir] is [os.path.isdir]; the crawler does
    not call it, the statements below do. *)
Class FileSystem (Fsys : Type) := {
  makedirs : string → Fsys → Fsys * option exn;
  path_exists : string → Fsys → bool;
  write_file : string → list byte → Fsys → Fsys * option exn;
  isdir : string → Fsys → bool
}.

(** [s'] has at least the objects of [s]: nothing that existed is gone, and
    directories are still directories. *)
Definition fs_le `{FileSystem Fsys} (s s' : Fsys) : Prop :=
  ∀ p, (path_exists p s = true → path_exists p s' = true) ∧
       (isdir p s = true → isdir p s' = true).

(** What the proofs assume of a file system: [makedirs] and [write_file]
    never remove anything, a successful [makedirs] leaves a directory, on
    an existing directory it changes nothing, and a successful write leaves
    an object at the path. *)
Record FileSystemLaws `{FileSystem Fsys} : Prop := {
  makedirs_keeps : ∀ d s, fs_le s (makedirs d s).1;
  makedirs_creates : ∀ d s, (makedirs d s).2 = None → isdir d (makedirs d s).1 = true;
  makedirs_exist_ok : ∀ d s, isdir d s = true → makedirs d s = (s, None);
  write_keeps : ∀ p b s, fs_le s (write_file p b s).1;
  write_creates : ∀ p b s,
    (write_file p b s).2 = None → path_exists p (write_file p b s).1 = true
}.
Arguments FileSystemLaws Fsys {_}.

(** ** A state and exception monad with a trace *)

Inductive res (A : Type) :=
| Ret (a : A)
| Raise (e : exn)
| NoFuel.
Arguments Ret {A} a.
Arguments Raise {A} e.
Arguments NoFuel {A}.

(** A computation takes the file system and returns the file system it
    leaves, the events it produced and how it ended. *)
Definition M (Fsys A : Type) : Type := Fsys → Fsys * list event * res A.

Definition ret {Fsys A} (a : A) : M Fsys A := λ s, (s, [], Ret a).

Definition raise {Fsys A} (e : exn) : M Fsys A := λ s, (s, [], Raise e).

Definition out_of_fuel {Fsys A} : M Fsys A := λ s, (s, [], NoFuel).

Definition bind {Fsys A B} (m : M Fsys A) (k : A → M Fsys B) : M Fsys B :=
  λ s,
    let '(s1, t1, r) := m s in
    match r with
    | Ret a => let '(s2, t2, r2) := k a s1 in (s2, (t1 ++ t2)%list, r2)
    | Raise e => (s1, t1, Raise e)
    | NoFuel => (s1, t1, NoFuel)
    end.

#[export] Instance M_ret {Fsys} : MRet (M Fsys) := λ A, ret.
#[export] Instance M_bind {Fsys} : MBind (M Fsys) := λ A B k m, bind m k.

(** The [for] loop: the body runs on each element in order and the loop
    stops at the first one that does not return. *)
Fixpoint for_each {Fsys A} (body : A → M Fsys unit) (l : list A) : M Fsys unit :=
  match l with
  | [] => ret tt
  | a :: l' => body a ;; for_each body l'
  end.

Definition lift_status {Fsys} (r : Fsys * option exn) (ev : event)
  : Fsys * list event * res unit :=
  (r.1, [ev], match r.2 with None => Ret tt | Some e => Raise e end).

(** ** Local paths *)

(** Line 16: the local directory of a sub-directory entry. *)
Definition child_local_dir (outdir href : string) : string :=
  OsPath.join outdir (PyStr.strip_slash href).

(** Line 18: the local path of a file entry. *)
Definition file_local_path (outdir href : string) : string :=
  OsPath.join outdir href.

(** The local directory reached from [outdir] through the directory hrefs
    [ds], outermost first, and the local path of the file [f] found there. *)
Definition local_dir_of (outdir : string) (ds : list string) : string :=
  foldl child_local_dir outdir ds.

Definition local_file_of (outdir : string) (ds : list string) (f : string) : string :=
  file_local_path (local_dir_of outdir ds) f.

(** The URLs that mirror them: the directory reached from [url] through the
    hrefs [ds], each resolved against the one before, and the file [f]
    found there. *)
Definition remote_dir_of (urljoin : string → string → string)
    (url : string) (ds : list string) : string :=
  foldl urljoin url ds.

Definition remote_file_of (urljoin : string → string → string)
    (url : string) (ds : list string) (f : string) : string :=
  urljoin (remote_dir_of urljoin url ds) f.

(** A plain name: not empty and without a separator. The href of a directory
    with a plain name is the name followed by one separator. *)
Definition plain_name (n : string) : bool :=
  negb (String.eqb n "") && PyStr.no_slash n.

Definition dir_href (n : string) : string := n +:+ "/".

(** The names written one after the other with a separator in between. *)
Fixpoint join_names (l : list string) : string :=
  match l with
  | [] => ""
  | [n] => n
  | n :: r => n +:+ "/" +:+ join_names r
  end.

(** What [os.path.join(a, b)] puts in front of a relative [b]. *)
Definition sep_prefix (a : string) : string :=
  if (String.eqb a "" || PyStr.endswith_slash a)%bool then a else a +:+ "/".

(** ** The crawler *)

Section Crawler.
Context {Fsys : Type} `{FileSystem Fsys}.

(** [urllib.parse.urljoin]. *)
Variable urljoin : string → string → string.

(** The remote side: what [requests.get(url)] returns, [None] when it
    raises instead (no connection, invalid URL, timeout). A response with
    an error status is returned like any other: the script never looks at
    [status_code] and never calls [raise_for_status]. *)
Variable remote : string → option response.

Definition os_makedirs (path : string) : M Fsys unit :=
  λ s, lift_status (makedirs path s) (EvMakedirs path).

Definition os_path_exists (path : string) : M Fsys bool :=
  λ s, (s, [], Ret (path_exists path s)).

Definition print_downloading (url : string) : M Fsys unit :=
  λ s, (s, [EvPrint url], Ret tt).

Definition requests_get (ev : string → event) (url : string) : M Fsys response :=
  λ s, (s, [ev url],
        match remote url with
        | Some r => Ret r
        | None => Raise RequestException
        end).

Definition write_binary (path : string) (data : list byte) : M Fsys unit :=
  λ s, lift_status (write_file path data s) (EvWrite path data).

(** Lines 18 to 23: the download of one matched file. *)
Definition download_file (full_url outdir href : string) : M Fsys unit :=
  let path := file_local_path outdir href in
  present ← os_path_exists path;
  if present : bool then ret tt
  else
    print_downloading full_url ;;
    r ← requests_get EvFetch full_url;
    write_binary path (content r).

(** Lines 13 to 23: the body of the loop, for one anchor. [recurse] is the
    recursive call. [urljoin(url, None)] returns [url], so the first thing
    to fail on an anchor without [href] is [href.endswith]. *)
Definition process_link (recurse : string → string → M Fsys unit)
    (url outdir : string) (link : anchor) : M Fsys unit :=
  match a_href link with
  | None => raise AttributeError
  | Some href =>
      let full_url := urljoin url href in
      if PyStr.endswith_slash href then
        recurse full_url (child_local_dir outdir href)
      else if Pattern.pattern_match href then
        download_file full_url outdir href
      else ret tt
  end.

(** [download_recursive(url, outdir)]. [fuel] bounds the number of nested
    activations: each recursive call runs with one unit less, and a call
    with none left ends in [NoFuel]. *)
Fixpoint download_recursive (fuel : nat) (url outdir : string) : M Fsys unit :=
  match fuel with
  | 0 => out_of_fuel
  | S fuel' =>
      os_makedirs outdir ;;
      r ← requests_get EvList url;
      for_each (process_link (download_recursive fuel') url outdir)
               (drop 1 (links r))
  end.

End Crawler.

(** Accessors for the three components of a run. *)
Definition final_fs {Fsys A} (x : Fsys * list event * res A) : Fsys := x.1.1.
Definition trace_of {Fsys A} (x : Fsys * list event * res A) : list event := x.1.2.
Definition result_of {Fsys A} (x : Fsys * list event * res A) : res A := x.2.

(** Events that move a file: the GET of a file and the write. *)
Definition is_transfer (ev : event) : bool :=
  match ev with
  | EvFetch _ | EvWrite _ _ | EvPrint _ => true
  | EvMakedirs _ | EvList _ => false
  end.

(** [replays m]: when [m] returns, [m] run again on any file system that
    has at least what the first run left changes nothing and transfers
    nothing. *)
Definition replays `{FileSystem Fsys} (m : M Fsys unit) : Prop :=
  ∀ s s1 t, m s = (s1, t, Ret tt) →
  ∀ s2, fs_le s1 s2 →
  ∃ t2, m s2 = (s2, t2, Ret tt) ∧ Forall (λ ev, is_transfer ev = false) t2.

(** ** Remote directory trees *)

(** The shape of a finite remote tree: a directory and its sub-directories. *)
Inductive rtree := RNode (children : list rtree).

(** A lone directory has depth 1, the number of activations of
    [download_recursive] it takes to crawl it. *)
Fixpoint depth (t : rtree) : nat :=
  match t with
  | RNode ts => S (foldr (λ t' acc, Nat.max (depth t') acc) 0 ts)
  end.

(** The hrefs of the anchors the crawler takes for directories. *)
Definition dir_hrefs (l : list anchor) : list string :=
  omap (λ a, match a_href a with
             | Some h => if PyStr.endswith_slash h then Some h else None
             | None => None
             end) l.

Section RemoteTree.
Variable urljoin : string → string → string.
Variable remote : string → option response.

(** [remote] serves the tree [t] at [url]: the listing at [url] is
    delivered, and the entries it shows as directories (the first anchor
    left out) are, in order, the roots of the sub-trees. A directory whose
    listing cannot be fetched is a leaf. *)
Inductive serves : string → rtree → Prop :=
| serves_node url r ts :
    remote url = Some r →
    Forall2 (λ h t, serves (urljoin url h) t) (dir_hrefs (drop 1 (links r))) ts →
    serves url (RNode ts)
| serves_unlisted url :
    remote url = None →
    serves url (RNode []).

(** The first anchor of every listing replaced by an arbitrary one. *)
Definition replace_first (a : anchor) (r : response) : response :=
  match links r with
  | [] => r
  | _ :: rest => Response (status_code r) (a :: rest) (content r)
  end.

Definition with_first (g : string → anchor) : string → option response :=
  λ url, replace_first (g url) <$> remote url.

End RemoteTree.

(** ** The wording of the specification, for comparison *)

Module SpecWording.

(** The child's local directory as the specification words it:
    [join(currentLocalDir, name)] with only the trailing separator of the
    name trimmed. *)
Definition spec_child_local_dir (outdir href : string) : string :=
  OsPath.join outdir (PyStr.drop_last href).

End SpecWording.

(** ** A POSIX-like file system *)

(** Objects are kept under the list of their path components. Empty and
    [.] components are dropped, so [data/2021], [data//2021] and
    [data/./2021/] name one object; an absolute path starts with the
    component [/]. Symbolic links, [..] and permissions are not part of
    this model. *)
Module PosixFs.
Import PyStr.

Inductive node := NDir | NFile (data : list byte).

Abbreviation fs := (gmap (list string) node).

Fixpoint split_slash (cur s : string) : list string :=
  match s with
  | EmptyString => [cur]
  | String c r =>
      if is_slash c then cur :: split_slash "" r
      else split_slash (cur +:+ String c "") r
  end.

Definition keep_component (c : string) : bool :=
  negb (String.eqb c "" || String.eqb c ".").

Definition resolve (p : string) : list string :=
  ((if startswith_slash p then ["/"] else []) ++
   List.filter keep_component (split_slash "" p))%list.

(** The working directory and the root always exist. *)
Definition always_there (k : list string) : bool :=
  match k with
  | [] => true
  | [c] => String.eqb c "/"
  | _ => false
  end.

Definition node_at (s : fs) (k : list string) : option node :=
  if always_there k then Some NDir else s !! k.

(** [s'] has the directories of [s] and an object wherever [s] has one. *)
Definition keeps (s s' : fs) : Prop :=
  ∀ k, (node_at s k = Some NDir → node_at s' k = Some NDir) ∧
       (is_Some (node_at s k) → is_Some (node_at s' k)).

(** Creates the missing directories of [done ++ todo] below [done], going
    down; stops at a component that is a regular file. *)
Fixpoint mk_from (done todo : list string) (s : fs) : fs * option exn :=
  match todo with
  | [] => (s, None)
  | c :: rest =>
      let k := (done ++ [c])%list in
      match node_at s k with
      | Some NDir => mk_from k rest s
      | Some (NFile _) =>
          (s, Some (match rest with
                    | [] => FileExistsError
                    | _ => NotADirectoryError
                    end))
      | None => mk_from k rest (<[k := NDir]> s)
      end
  end.

Definition posix_isdir (p : string) (s : fs) : bool :=
  negb (String.eqb p "") &&
  match node_at s (resolve p) with
  | Some NDir => true
  | _ => false
  end.

Definition posix_exists (p : string) (s : fs) : bool :=
  negb (String.eqb p "") &&
  match node_at s (resolve p) with
  | Some _ => true
  | None => false
  end.

Definition posix_makedirs (p : string) (s : fs) : fs * option exn :=
  if String.eqb p "" then (s, Some FileNotFoundError)
  else if posix_isdir p s then (s, None)
  else mk_from [] (resolve p) s.

Definition posix_write (p : string) (data : list byte) (s : fs) : fs * option exn :=
  if String.eqb p "" then (s, Some FileNotFoundError)
  else
    let k := resolve p in
    match node_at s (removelast k) with
    | Some NDir =>
        match node_at s k with
        | Some NDir => (s, Some IsADirectoryError)
        | _ => (<[k := NFile data]> s, None)
        end
    | Some (NFile _) => (s, Some NotADirectoryError)
    | None => (s, Some FileNotFoundError)
    end.

#[export] Instance posix_fs : FileSystem fs := {|
  makedirs := posix_makedirs;
  path_exists := posix_exists;
  write_file := posix_write;
  isdir := posix_isdir
|}.

(** The bytes of the regular file at [p], if there is one. *)
Definition read_file (p : string) (s : fs) : option (list byte) :=
  match node_at s (resolve p) with
  | Some (NFile data) => Some data
  | _ => None
  end.

(** A non-empty object at [p]: a directory, or a regular file of at least
    one byte. *)
Definition nonempty_object (p : string) (s : fs) : bool :=
  match node_at s (resolve p) with
  | Some NDir => negb (String.eqb p "")
  | Some (NFile (_ :: _)) => true
  | _ => false
  end.

Definition empty_fs : fs := ∅.

End PosixFs.

(** ** Remote sites used in the examples *)

Module Sites.
Import PosixFs.

(** [urljoin(base, href)] for a [base] that ends with a separator and a
    relative [href] made of plain path segments: the href is appended. *)
Definition urljoin_rel (base href : string) : string := base +:+ href.

Fixpoint serve (pages : list (string * response)) (url : string) : option response :=
  match pages with
  | [] => None
  | (u, r) :: rest => if String.eqb u url then Some r else serve rest url
  end.

Definition parent_link : anchor := Anchor (Some "../") "Parent Directory".
Definition link (href : string) : anchor := Anchor (Some href) href.
Definition listing (l : list anchor) : response := Response 200 l [].
Definition tif_bytes : list byte := [x49; x49; x2a; x00].
Definition tif_file : response := Response 200 [] tif_bytes.
Definition not_found_bytes : list byte := [x34; x30; x34].
Definition not_found : response := Response 404 [] not_found_bytes.

Definition root : string := "http://h/r/".

(** Two year directories; the listing of [2021/] cannot be fetched. *)
Definition site_years : string → option response :=
  serve [ (root, listing [parent_link; link "2021/"; link "2022/"]);
          ("http://h/r/2022/", listing [parent_link; link "N_20220101_extent_v4.0.tif"]);
          ("http://h/r/2022/N_20220101_extent_v4.0.tif", tif_file) ].

(** A file whose GET fails, followed by a file that is there. *)
Definition site_broken_file : string → option response :=
  serve [ (root, listing [parent_link; link "a_extent_v4.0.tif"; link "b_extent_v4.0.tif"]);
          ("http://h/r/b_extent_v4.0.tif", tif_file) ].

(** One matching file. *)
Definition site_one_file : string → option response :=
  serve [ (root, listing [parent_link; link "N_extent_v4.0.tif"]);
          ("http://h/r/N_extent_v4.0.tif", tif_file) ].

(** One matching file that the server answers with status 404. *)
Definition site_404 : string → option response :=
  serve [ (root, listing [parent_link; link "N_extent_v4.0.tif"]);
          ("http://h/r/N_extent_v4.0.tif", not_found) ].

(** An anchor without [href] before a matching file. *)
Definition site_no_href : string → option response :=
  serve [ (root, listing [parent_link; Anchor None "top"; link "N_extent_v4.0.tif"]);
          ("http://h/r/N_extent_v4.0.tif", tif_file) ].

(** A file entry whose href names a sub-directory that is not there
    locally, followed by a directory. *)
Definition site_nested_href : string → option response :=
  serve [ (root, listing [parent_link; link "sub/N_extent_v4.0.tif"; link "deep/"]);
          ("http://h/r/sub/N_extent_v4.0.tif", tif_file);
          ("http://h/r/deep/", listing [parent_link]) ].

Definition tree_nested_href : rtree := RNode [RNode []].

(** A two-level archive: one year directory with one matching file, a file
    that does not match and an empty directory. *)
Definition site_archive : string → option response :=
  serve [ (root, listing [parent_link; link "2021/"; link "readme.txt"; link "empty/"]);
          ("http://h/r/2021/", listing [parent_link; link "N_20210101_extent_v4.0.tif"]);
          ("http://h/r/2021/N_20210101_extent_v4.0.tif", tif_file);
          ("http://h/r/empty/", listing [parent_link]) ].

Definition tree_archive : rtree := RNode [RNode []; RNode []].

(** A directory and a file whose hrefs differ by the trailing separator. *)
Definition site_same_name : string → option response :=
  serve [ (root, listing [parent_link; link "extent_v4.0.tif/"; link "extent_v4.0.tif"]);
          ("http://h/r/extent_v4.0.tif/", listing [parent_link]);
          ("http://h/r/extent_v4.0.tif", tif_file) ].

(** Three matching files, the first of them in the place of the parent
    link. *)
Definition site_abc : string → option response :=
  serve [ (root, listing [link "A_extent_v4.0.tif"; link "B_extent_v4.0.tif";
                          link "C_extent_v4.0.tif"]);
          ("http://h/r/A_extent_v4.0.tif", tif_file);
          ("http://h/r/B_extent_v4.0.tif", tif_file);
          ("http://h/r/C_extent_v4.0.tif", tif_file) ].

(** A file already present, with no byte in it. *)
Definition fs_empty_file : fs :=
  (posix_write "data/N_extent_v4.0.tif" [] (posix_makedirs "data" empty_fs).1).1.

Definition crawl (remote : string → option response) (fuel : nat) (s : fs) :=
  download_recursive urljoin_rel remote fuel root "data" s.

(** [urljoin(base, href)] for bases of the host [http://h]: a href that
    starts with one separator is an absolute path and replaces the path of
    the base; any other is taken as above. *)
Definition urljoin_host (base href : string) : string :=
  if PyStr.startswith_slash href then "http://h" +:+ href else base +:+ href.

(** A file entry whose href is an absolute path. *)
Definition site_absolute_href : string → option response :=
  serve [ (root, listing [parent_link; link "/tmp/N_extent_v4.0.tif"]);
          ("http://h/tmp/N_extent_v4.0.tif", tif_file) ].

(** A file system where [/tmp] is a directory. *)
Definition fs_with_tmp : fs := (posix_makedirs "/tmp" empty_fs).1.

(** One file listed twice, by a relative href and by its absolute path. *)
Definition site_two_hrefs : string → option response :=
  serve [ (root, listing [parent_link; link "N_extent_v4.0.tif";
                          link "/r/N_extent_v4.0.tif"]);
          ("http://h/r/N_extent_v4.0.tif", tif_file) ].

(** A file system where [/r] is a directory. *)
Definition fs_with_r : fs := (posix_makedirs "/r" empty_fs).1.

End Sites.

(** ** What a trace shows *)

(** The local paths the crawl opened for writing, in order. *)
Definition write_paths (t : list event) : list string :=
  omap (λ ev, match ev with EvWrite p _ => Some p | _ => None end) t.

(** [u] was requested: there is a GET of [u] in the trace, for a listing or
    for a file. *)
Definition requested (u : string) (t : list event) : Prop :=
  EvList u ∈ t ∨ EvFetch u ∈ t.

(** [careful m]: from any file system, [m] removes nothing, opens for
    writing only paths at which nothing exists, opens no path twice, and
    when it returns every path it opened exists. *)
Definition careful `{FileSystem Fsys} (m : M Fsys unit) : Prop :=
  ∀ s,
    fs_le s (final_fs (m s)) ∧
    (∀ p, p ∈ write_paths (trace_of (m s)) → path_exists p s = false) ∧
    NoDup (write_paths (trace_of (m s))) ∧
    (result_of (m s) = Ret tt →
     ∀ p, p ∈ write_paths (trace_of (m s)) → path_exists p (final_fs (m s)) = true).

(** The exceptions of the operating system, as opposed to the one of
    [requests] and to [AttributeError]. *)
Definition is_os_error (e : exn) : bool :=
  match e with
  | RequestException | AttributeError => false
  | _ => true
  end.

(** The file system raises exceptions of the operating system only. *)
Definition raises_os_errors_only (Fsys : Type) `{FileSystem Fsys} : Prop :=
  ∀ (s : Fsys) e,
    (∀ d, (makedirs d s).2 = Some e → is_os_error e = true) ∧
    (∀ p b, (write_file p b s).2 = Some e → is_os_error e = true).

Section Links.
Variable urljoin : string → string → string.
Variable remote : string → option response.

(** The URLs that listings lead to from [root]: [root] itself, and the
    resolved href of any anchor but the first in the listing delivered at
    a URL already reached. *)
Inductive linked (root : string) : string → Prop :=
| linked_root : linked root root
| linked_href u r a h :
    linked root u →
    remote u = Some r →
    a ∈ drop 1 (links r) →
    a_href a = Some h →
    linked root (urljoin u h).

End Links.

Section Entries.
Variable urljoin : string → string → string.
Variable remote : string → option response.

(** The file entries of the remote tree: [file_entry url ds f] when the
    hrefs [ds] are those of anchors, none of them the first of its listing,
    that the crawler takes for directories, each found in the listing
    delivered at the URL the hrefs before it lead to from [url], and [f]
    is the href of an anchor of the listing reached at the end, not the
    first, that is no directory and that the pattern accepts. *)
Inductive file_entry : string → list string → string → Prop :=
| entry_here url r a f :
    remote url = Some r →
    a ∈ drop 1 (links r) →
    a_href a = Some f →
    PyStr.endswith_slash f = false →
    Pattern.pattern_match f = true →
    file_entry url [] f
| entry_below url r a h ds f :
    remote url = Some r →
    a ∈ drop 1 (links r) →
    a_href a = Some h →
    PyStr.endswith_slash h = true →
    file_entry (urljoin url h) ds f →
    file_entry url (h :: ds) f.

(** A href is plain when it is a plain name, or a plain name followed by
    one separator; a site is plain when every href of every anchor but the
    first of every listing it delivers is. *)
Definition plain_href (h : string) : Prop :=
  plain_name h = true ∨ ∃ n, h = dir_href n ∧ plain_name n = true.

Definition plain_site : Prop :=
  ∀ u r a h, remote u = Some r → a ∈ drop 1 (links r) → a_href a = Some h →
             plain_href h.

End Entries.

(** [s'] holds every object of [s] unchanged: the same directories, and
    the same files with the same bytes. *)
Definition posix_grows (s s' : PosixFs.fs) : Prop :=
  ∀ k n, PosixFs.node_at s k = Some n → PosixFs.node_at s' k = Some n.

(** ** Patterns of the form [.*] items [$] *)

Module Regex.
Import PyStr Pattern.

Fixpoint newline_free (s : string) : bool :=
  match s with
  | EmptyString => true
  | String c r => item_matches Dot c && newline_free r
  end.

(** The characters of [m] match the items one for one. *)
Definition fits (items : list item) (m : string) : Prop :=
  Forall2 (λ i c, item_matches i c = true) items (list_ascii_of_string m).

Definition here (items : list item) (s : string) : bool :=
  match match_items items s with
  | Some rest => at_end rest
  | None => false
  end.

(** [re.match] of [.*] followed by the items and [$]. *)
Fixpoint dotstar_then (items : list item) (s : string) : bool :=
  (here items s ||
   match s with
   | String c r => item_matches Dot c && dotstar_then items r
   | EmptyString => false
   end)%bool.

End Regex.

(** ** The inventory of [proprocessing/05_process.py] *)

(** File names are taken to be made of ASCII characters, the case of the
    names of the archive: among these the decimal digits, which is what
    [\d] matches, are [0] to [9]. A name with other characters is outside
    of what the date extraction below stands for. *)
Module Process.
Import PyStr Pattern Regex.

(** Line 6: [pattern = re.compile(r".*.tif$")]. The dot before [tif] is a
    wildcard too. *)
Definition tif_part : list item := [Dot; Lit "t"%char; Lit "i"%char; Lit "f"%char].

Definition tif_match (s : string) : bool := dotstar_then tif_part s.

(** One element of [rows]. *)
Record row := Row { filename : string; local_path : string; size_bytes : nat }.

Section Inventory.
(** [os.path.getsize], [None] when it raises (the path is a dangling
    symbolic link, or the file has gone since the directory was read). *)
Variable getsize : string → option nat.

(** Lines 11 to 18: the inner loop over the files of one directory. *)
Fixpoint rows_of_files (root : string) (files : list string) : option (list row) :=
  match files with
  | [] => Some []
  | file :: rest =>
      if tif_match file then
        let path := OsPath.join root file in
        size ← getsize path;
        rs ← rows_of_files root rest;
        Some (Row file path size :: rs)
      else rows_of_files root rest
  end.

(** Lines 8 to 18: the rows collected over what [os.walk(download_dir)]
    yields, a triple [(root, dirs, files)] for each directory walked. *)
Fixpoint build_rows (walk : list (string * list string * list string))
  : option (list row) :=
  match walk with
  | [] => Some []
  | (root, _, files) :: walk' =>
      rs ← rows_of_files root files;
      rest ← build_rows walk';
      Some (rs ++ rest)%list
  end.

End Inventory.

(** Every character of the string is an ASCII character. *)
Fixpoint ascii_only (s : string) : bool :=
  match s with
  | EmptyString => true
  | String c r => (nat_of_ascii c <? 128)%nat && ascii_only r
  end.

Definition is_digit (c : ascii) : bool :=
  (48 <=? nat_of_ascii c)%nat && (nat_of_ascii c <=? 57)%nat.

Fixpoint all_digits (s : string) : bool :=
  match s with
  | EmptyString => true
  | String c r => is_digit c && all_digits r
  end.

Fixpoint underscore_free (s : string) : bool :=
  match s with
  | EmptyString => true
  | String c r => negb (Ascii.eqb c "_"%char) && underscore_free r
  end.

(** Reads exactly [n] digits at the head of [s]; returns them and the
    rest. *)
Fixpoint take_digits (n : nat) (s : string) : option (string * string) :=
  match n, s with
  | 0, _ => Some (EmptyString, s)
  | S n', String c r =>
      if is_digit c then
        '(d, rest) ← take_digits n' r;
        Some (String c d, rest)
      else None
  | S _, EmptyString => None
  end.

(** [_(\d{8})_] matched at the head of [s]: the group. *)
Definition date_here (s : string) : option string :=
  match s with
  | String c r =>
      if Ascii.eqb c "_"%char then
        match take_digits 8 r with
        | Some (d, String c' _) => if Ascii.eqb c' "_"%char then Some d else None
        | _ => None
        end
      else None
  | EmptyString => None
  end.

(** Line 33: [str.extract(r"_(\d{8})_")[0]] on one file name: the group of
    the leftmost match, [None] (a missing value) when there is no match. *)
Fixpoint extract_date (s : string) : option string :=
  match date_here s with
  | Some d => Some d
  | None =>
      match s with
      | String _ r => extract_date r
      | EmptyString => None
      end
  end.

End Process.

(** * Properties *)

(** ** The monad and the loop *)

Section MonadFacts.
Context {Fsys : Type}.

Lemma bind_unfold {A B} (m : M Fsys A) (k : A → M Fsys B) (s : Fsys) :
  (m ≫= k) s =
  match m s with
  | (s1, t1, Ret a) =>
      (final_fs (k a s1), (t1 ++ trace_of (k a s1))%list, result_of (k a s1))
  | (s1, t1, Raise e) => (s1, t1, Raise e)
  | (s1, t1, NoFuel) => (s1, t1, NoFuel)
  end.
Proof.
  unfold mbind, M_bind, bind, final_fs, trace_of, result_of.
  destruct (m s) as [[s1 t1] [a|e|]]; [|done..].
  by destruct (k a s1) as [[s2 t2] r2].
Qed.

Lemma for_each_cons_unfold {A} (body : A → M Fsys unit) a l s :
  for_each body (a :: l) s =
  match body a s with
  | (s1, t1, Ret _) =>
      (final_fs (for_each body l s1),
       (t1 ++ trace_of (for_each body l s1))%list,
       result_of (for_each body l s1))
  | (s1, t1, Raise e) => (s1, t1, Raise e)
  | (s1, t1, NoFuel) => (s1, t1, NoFuel)
  end.
Proof. cbn [for_each]. by rewrite bind_unfold. Qed.

Lemma run_eta {A} (x : Fsys * list event * res A) :
  x = (final_fs x, trace_of x, result_of x).
Proof. by destruct x as [[? ?] ?]. Qed.

(** The loop stops at the first element whose body raises: the elements
    after it play no part in the run. *)
Lemma for_each_raise {A} (body : A → M Fsys unit) l1 a l2 s s1 t1 s2 t2 e :
  for_each body l1 s = (s1, t1, Ret tt) →
  body a s1 = (s2, t2, Raise e) →
  for_each body (l1 ++ a :: l2) s = (s2, (t1 ++ t2)%list, Raise e).
Proof.
  revert s t1. induction l1 as [|b l1 IH]; intros s t1 Hl1 Ha.
  - cbn in Hl1. injection Hl1 as <- <-. cbn [app].
    by rewrite for_each_cons_unfold, Ha.
  - rewrite <- app_comm_cons, for_each_cons_unfold.
    rewrite for_each_cons_unfold in Hl1.
    destruct (body b s) as [[sb tb] [[]|eb|]]; [|done..].
    destruct (for_each body l1 sb) as [[s' t'] r'] eqn:E.
    unfold final_fs, trace_of, result_of in Hl1; cbn in Hl1.
    injection Hl1 as -> <- ->.
    rewrite (IH sb t' E Ha). unfold final_fs, trace_of, result_of; cbn.
    by rewrite app_assoc.
Qed.

Lemma for_each_ext {A} (f g : A → M Fsys unit) l s :
  (∀ a s', a ∈ l → f a s' = g a s') → for_each f l s = for_each g l s.
Proof.
  revert s. induction l as [|a l IH]; intros s Hfg; [done|].
  rewrite !for_each_cons_unfold, Hfg by left.
  destruct (g a s) as [[s1 t1] [[]|e|]]; [|done..].
  rewrite IH; [done|]. intros b s' Hb. apply Hfg. by right.
Qed.

End MonadFacts.

(** ** The crawler, unfolded *)

Section CrawlerFacts.
Context {Fsys : Type} `{FileSystem Fsys}.
Variable urljoin : string → string → string.
Variable remote : string → option response.

Lemma download_file_unfold full_url outdir href (s : Fsys) :
  download_file remote full_url outdir href s =
  let path := file_local_path outdir href in
  if path_exists path s then (s, [], Ret tt)
  else
    match remote full_url with
    | None => (s, [EvPrint full_url; EvFetch full_url], Raise RequestException)
    | Some r =>
        let w := write_file path (content r) s in
        (w.1, [EvPrint full_url; EvFetch full_url; EvWrite path (content r)],
         match w.2 with None => Ret tt | Some e => Raise e end)
    end.
Proof.
  unfold download_file. rewrite bind_unfold. cbn.
  destruct (path_exists _ s); [done|].
  rewrite bind_unfold. cbn. rewrite bind_unfold. cbn.
  destruct (remote full_url) as [r|]; [|done].
  unfold write_binary, lift_status, final_fs, trace_of, result_of. by cbn.
Qed.

Lemma download_recursive_unfold fuel url outdir (s : Fsys) :
  download_recursive urljoin remote (S fuel) url outdir s =
  let m := makedirs outdir s in
  match m.2 with
  | Some e => (m.1, [EvMakedirs outdir], Raise e)
  | None =>
      match remote url with
      | None => (m.1, [EvMakedirs outdir; EvList url], Raise RequestException)
      | Some r =>
          let x := for_each
                     (process_link urljoin remote
                        (download_recursive urljoin remote fuel) url outdir)
                     (drop 1 (links r)) m.1 in
          (final_fs x, EvMakedirs outdir :: EvList url :: trace_of x, result_of x)
      end
  end.
Proof.
  cbn [download_recursive]. rewrite bind_unfold.
  unfold os_makedirs at 1, lift_status. cbn.
  destruct (makedirs outdir s) as [s1 [e|]]; cbn; [done|].
  rewrite bind_unfold. unfold requests_get at 1. cbn.
  destruct (remote url) as [r|]; [|done].
  unfold final_fs, trace_of, result_of. by cbn.
Qed.

(** *** Nothing is ever removed *)

Lemma fs_le_refl (s : Fsys) : fs_le s s.
Proof. by intros p. Qed.

Lemma fs_le_trans (s1 s2 s3 : Fsys) : fs_le s1 s2 → fs_le s2 s3 → fs_le s1 s3.
Proof.
  intros H12 H23 p. destruct (H12 p) as [? ?], (H23 p) as [? ?]. split; auto.
Qed.

Lemma for_each_fs_le {A} (body : A → M Fsys unit) l :
  (∀ a s, a ∈ l → fs_le s (final_fs (body a s))) →
  ∀ s, fs_le s (final_fs (for_each body l s)).
Proof.
  induction l as [|a l IH]; intros Hbody s; [apply fs_le_refl|].
  rewrite for_each_cons_unfold.
  pose proof (Hbody a s ltac:(left)) as Ha.
  destruct (body a s) as [[s1 t1] [[]|e|]]; try exact Ha.
  apply fs_le_trans with s1; [exact Ha|].
  apply IH. intros b s' Hb. apply Hbody. by right.
Qed.

Hypothesis laws : FileSystemLaws Fsys.

Lemma download_file_fs_le full_url outdir href (s : Fsys) :
  fs_le s (final_fs (download_file remote full_url outdir href s)).
Proof.
  rewrite download_file_unfold. cbn.
  destruct (path_exists _ s); [apply fs_le_refl|].
  destruct (remote full_url); [|apply fs_le_refl].
  apply (write_keeps laws).
Qed.

Lemma process_link_fs_le recurse url outdir link :
  (∀ u d s, fs_le s (final_fs (recurse u d s))) →
  ∀ s : Fsys, fs_le s (final_fs (process_link urljoin remote recurse url outdir link s)).
Proof.
  intros Hrec s. unfold process_link.
  destruct (a_href link) as [href|]; [|apply fs_le_refl].
  destruct (PyStr.endswith_slash href); [apply Hrec|].
  destruct (Pattern.pattern_match href); [apply download_file_fs_le|apply fs_le_refl].
Qed.

Lemma download_recursive_fs_le fuel url outdir (s : Fsys) :
  fs_le s (final_fs (download_recursive urljoin remote fuel url outdir s)).
Proof.
  revert url outdir s. induction fuel as [|fuel IH]; intros url outdir s.
  - apply fs_le_refl.
  - rewrite download_recursive_unfold. cbn.
    pose proof (makedirs_keeps laws outdir s) as Hm.
    destruct (makedirs outdir s) as [s1 [e|]]; cbn in *; [exact Hm|].
    destruct (remote url) as [r|]; [|exact Hm].
    apply fs_le_trans with s1; [exact Hm|].
    apply for_each_fs_le. intros a s' _. by apply process_link_fs_le.
Qed.

(** *** Running again on what a completed run left *)

Lemma download_file_replays full_url outdir href :
  replays (download_file remote full_url outdir href).
Proof.
  intros s s1 t Hrun s2 Hle. exists []. split; [|constructor].
  rewrite download_file_unfold in Hrun |- *. cbn in *.
  assert (path_exists (file_local_path outdir href) s1 = true) as Hex.
  { destruct (path_exists _ s) eqn:E.
    - by injection Hrun as <- _.
    - destruct (remote full_url) as [r|]; [|done].
      pose proof (write_creates laws (file_local_path outdir href) (content r) s) as Hw.
      destruct (write_file _ _ s) as [w [e|]]; cbn in *; [done|].
      injection Hrun as <- _. by apply Hw. }
  by rewrite (proj1 (Hle _) Hex).
Qed.

Lemma process_link_replays recurse url outdir link :
  (∀ u d, replays (recurse u d)) →
  replays (process_link urljoin remote recurse url outdir link).
Proof.
  intros Hrec. unfold process_link.
  destruct (a_href link) as [href|]; [|by intros s s1 t Hrun].
  destruct (PyStr.endswith_slash href); [apply Hrec|].
  destruct (Pattern.pattern_match href); [apply download_file_replays|].
  intros s s1 t Hrun s2 _. exists []. split; [done|constructor].
Qed.

Lemma for_each_replays {A} (body : A → M Fsys unit) l :
  (∀ a s, a ∈ l → fs_le s (final_fs (body a s))) →
  (∀ a, a ∈ l → replays (body a)) →
  replays (for_each body l).
Proof.
  induction l as [|a l IH]; intros Hle Hrep s s1 t Hrun s2 H12.
  - exists []. split; [done|constructor].
  - rewrite for_each_cons_unfold in Hrun.
    destruct (body a s) as [[sa ta] [[]|e|]] eqn:Ea; [|done..].
    destruct (for_each body l sa) as [[sl tl] rl] eqn:El.
    unfold final_fs, trace_of, result_of in Hrun; cbn in Hrun.
    injection Hrun as -> <- ->.
    assert (fs_le sa s1) as Ha1.
    { pose proof (for_each_fs_le body l
        (λ b s' Hb, Hle b s' (list_elem_of_further _ _ _ Hb)) sa) as Hl.
      by rewrite El in Hl. }
    destruct (Hrep a ltac:(left) s sa ta Ea s2 (fs_le_trans _ _ _ Ha1 H12))
      as (t2a & Ea2 & Hq2a).
    destruct (IH (λ b s' Hb, Hle b s' (list_elem_of_further _ _ _ Hb))
                 (λ b Hb, Hrep b (list_elem_of_further _ _ _ Hb))
                 sa s1 tl El s2 H12) as (t2l & El2 & Hq2l).
    exists (t2a ++ t2l)%list. split; [|by apply Forall_app].
    rewrite for_each_cons_unfold, Ea2, El2. done.
Qed.

Lemma download_recursive_replays fuel url outdir :
  replays (download_recursive urljoin remote fuel url outdir).
Proof.
  revert url outdir. induction fuel as [|fuel IH]; intros url outdir; [by intros s s1 t Hrun|].
  intros s s1 t Hrun s2 H12.
  rewrite download_recursive_unfold in Hrun |- *. cbn in *.
  pose proof (makedirs_creates laws outdir s) as Hdir.
  pose proof (makedirs_keeps laws outdir s) as Hkeep.
  destruct (makedirs outdir s) as [sm [e|]]; cbn in *; [done|].
  destruct (remote url) as [r|]; [|done].
  set (body := process_link urljoin remote (download_recursive urljoin remote fuel) url outdir) in *.
  destruct (for_each body (drop 1 (links r)) sm) as [[sl tl] rl] eqn:El.
  unfold final_fs, trace_of, result_of in Hrun; cbn in Hrun.
  injection Hrun as -> <- ->.
  assert (∀ a (s' : Fsys), a ∈ drop 1 (links r) → fs_le s' (final_fs (body a s'))) as Hle.
  { intros a s' _. apply process_link_fs_le. intros. apply download_recursive_fs_le. }
  assert (fs_le sm s1) as Hm1.
  { pose proof (for_each_fs_le body _ Hle sm) as Hl. by rewrite El in Hl. }
  assert (isdir outdir s2 = true) as Hdir2.
  { apply H12, Hm1. by apply Hdir. }
  rewrite (makedirs_exist_ok laws outdir s2 Hdir2). cbn.
  destruct (for_each_replays body (drop 1 (links r)) Hle
              (λ a _, process_link_replays _ url outdir a IH) sm s1 tl El s2 H12)
    as (t2 & E2 & Hq).
  exists (EvMakedirs outdir :: EvList url :: t2). rewrite E2. split; [done|].
  by repeat constructor.
Qed.

End CrawlerFacts.

(** ** Fuel and the depth of the recursion *)

Section Depth.
Context {Fsys : Type} `{FileSystem Fsys}.
Variable urljoin : string → string → string.
Variable remote : string → option response.

Lemma for_each_agree {A} (f g : A → M Fsys unit) l (s : Fsys) :
  (∀ a s', a ∈ l → result_of (g a s') ≠ NoFuel → f a s' = g a s') →
  result_of (for_each g l s) ≠ NoFuel →
  for_each f l s = for_each g l s.
Proof.
  revert s. induction l as [|a l IH]; intros s Hfg Hres; [done|].
  rewrite for_each_cons_unfold in Hres. rewrite !for_each_cons_unfold.
  assert (f a s = g a s) as ->.
  { apply Hfg; [by left|]. by destruct (g a s) as [[? ?] [[]|?|]]. }
  destruct (g a s) as [[s1 t1] [[]|e|]]; [|done..].
  rewrite IH; [done| |done].
  intros b s' Hb. apply Hfg. by right.
Qed.

Lemma for_each_has_fuel {A} (body : A → M Fsys unit) l (s : Fsys) :
  (∀ a s', a ∈ l → result_of (body a s') ≠ NoFuel) →
  result_of (for_each body l s) ≠ NoFuel.
Proof.
  revert s. induction l as [|a l IH]; intros s Hbody; [done|].
  rewrite for_each_cons_unfold.
  pose proof (Hbody a s ltac:(left)) as Ha.
  destruct (body a s) as [[s1 t1] [[]|e|]]; [|done..].
  apply IH. intros b s' Hb. apply Hbody. by right.
Qed.

Lemma download_file_has_fuel full_url outdir href (s : Fsys) :
  result_of (download_file remote full_url outdir href s) ≠ NoFuel.
Proof.
  rewrite download_file_unfold. cbn.
  destruct (path_exists _ s); [done|].
  destruct (remote full_url); [|done].
  by destruct (write_file _ _ s) as [? [?|]].
Qed.

(** A call that did not run out of fuel runs the same with one unit more. *)
Lemma download_recursive_fuel_S fuel url outdir (s : Fsys) :
  result_of (download_recursive urljoin remote fuel url outdir s) ≠ NoFuel →
  download_recursive urljoin remote (S fuel) url outdir s =
  download_recursive urljoin remote fuel url outdir s.
Proof.
  revert url outdir s. induction fuel as [|fuel IH]; intros url outdir s Hres; [done|].
  rewrite download_recursive_unfold in Hres.
  rewrite (download_recursive_unfold _ _ (S fuel)), (download_recursive_unfold _ _ fuel).
  cbn in *. destruct (makedirs outdir s) as [sm [e|]]; cbn in *; [done|].
  destruct (remote url) as [r|]; [|done].
  set (g := process_link urljoin remote (download_recursive urljoin remote fuel) url outdir) in *.
  rewrite (for_each_agree _ g); [done| |exact Hres].
  intros a s' _. unfold g, process_link.
  destruct (a_href a) as [href|]; [|done].
  destruct (PyStr.endswith_slash href); [apply IH|done].
Qed.

Lemma download_recursive_fuel_le (fuel fuel' : nat) url outdir (s : Fsys) :
  (fuel ≤ fuel')%nat →
  result_of (download_recursive urljoin remote fuel url outdir s) ≠ NoFuel →
  download_recursive urljoin remote fuel' url outdir s =
  download_recursive urljoin remote fuel url outdir s.
Proof.
  intros Hle Hres. induction Hle as [|fuel' Hle IH]; [done|].
  rewrite download_recursive_fuel_S; [done|]. by rewrite IH.
Qed.

Lemma download_recursive_fuel_agree fuel fuel' url outdir (s : Fsys) :
  result_of (download_recursive urljoin remote fuel url outdir s) ≠ NoFuel →
  result_of (download_recursive urljoin remote fuel' url outdir s) ≠ NoFuel →
  download_recursive urljoin remote fuel url outdir s =
  download_recursive urljoin remote fuel' url outdir s.
Proof.
  intros H1 H2. destruct (Nat.le_ge_cases fuel fuel') as [Hle|Hle].
  - symmetry. by apply download_recursive_fuel_le.
  - by apply download_recursive_fuel_le.
Qed.

Lemma depth_child t ts :
  t ∈ ts → (depth t ≤ foldr (λ t' acc, Nat.max (depth t') acc) 0 ts)%nat.
Proof.
  induction 1 as [t ts|t t' ts _ IH]; cbn; lia.
Qed.

Lemma deep_child (n : nat) ts :
  (n < foldr (λ t' acc, Nat.max (depth t') acc) 0 ts)%nat →
  Exists (λ t, (n < depth t)%nat) ts.
Proof.
  induction ts as [|t ts IH]; cbn; [lia|]. intros Hn.
  destruct (decide (n < depth t)%nat); [by left|]. right. apply IH. lia.
Qed.

Lemma dir_hrefs_elem a h l :
  a ∈ l → a_href a = Some h → PyStr.endswith_slash h = true → h ∈ dir_hrefs l.
Proof.
  intros Ha Hh He. apply list_elem_of_omap. exists a. split; [done|].
  by rewrite Hh, He.
Qed.

(** With as much fuel as the tree is deep, no call runs out of it. *)
Lemma served_tree_has_fuel (fuel : nat) t url outdir (s : Fsys) :
  serves urljoin remote url t → (depth t ≤ fuel)%nat →
  result_of (download_recursive urljoin remote fuel url outdir s) ≠ NoFuel.
Proof.
  revert t url outdir s. induction fuel as [|fuel IH]; intros t url outdir s Hsrv Hd.
  - destruct t; cbn in Hd; lia.
  - rewrite download_recursive_unfold. cbn.
    destruct (makedirs outdir s) as [sm [e|]]; cbn; [done|].
    destruct Hsrv as [url r ts Hr Hkids|url Hr]; rewrite Hr; cbn; [|done].
    apply for_each_has_fuel. intros a s' Ha. unfold process_link.
    destruct (a_href a) as [href|] eqn:Hh; [|done].
    destruct (PyStr.endswith_slash href) eqn:He.
    + pose proof (dir_hrefs_elem a href _ Ha Hh He) as Hin.
      apply list_elem_of_lookup in Hin as [i Hi].
      destruct (Forall2_lookup_l _ _ _ _ _ Hkids Hi) as (t' & Ht' & Hsrv').
      apply (IH t'); [done|].
      pose proof (depth_child t' ts (list_elem_of_lookup_2 _ _ _ Ht')).
      cbn in Hd. lia.
    + destruct (Pattern.pattern_match href); [apply download_file_has_fuel|done].
Qed.

(** A crawl that returns has gone through every directory of the tree: with
    less fuel than the tree is deep it would have run out. *)
Lemma completed_crawl_needs_depth (n : nat) :
  ∀ (m : nat) t url outdir (s s1 : Fsys) tr,
  serves urljoin remote url t →
  download_recursive urljoin remote m url outdir s = (s1, tr, Ret tt) →
  (n < depth t)%nat →
  result_of (download_recursive urljoin remote n url outdir s) = NoFuel.
Proof.
  induction n as [|n IH]; intros m t url outdir s s1 tr Hsrv Hrun Hn; [done|].
  destruct m as [|m]; [done|].
  rewrite download_recursive_unfold in Hrun |- *. cbn in *.
  destruct (makedirs outdir s) as [sm [e|]]; cbn in *; [done|].
  destruct Hsrv as [url r ts Hr Hkids|url Hr]; [|cbn in Hn; lia].
  rewrite Hr in Hrun |- *. cbn.
  assert (Exists (λ t, (n < depth t)%nat) ts) as Hdeep
    by (apply deep_child; cbn in Hn; lia).
  clear Hn. rename Hdeep into Hn.
  set (fm := process_link urljoin remote (download_recursive urljoin remote m) url outdir) in *.
  set (fn := process_link urljoin remote (download_recursive urljoin remote n) url outdir) in *.
  assert (∃ s' tr', for_each fm (drop 1 (links r)) sm = (s', tr', Ret tt)) as (s' & tr' & Hfm).
  { destruct (for_each fm _ sm) as [[s' tr'] r'].
    unfold final_fs, trace_of, result_of in Hrun; cbn in Hrun.
    injection Hrun as _ _ ->. by eexists _, _. }
  clear Hrun Hr. revert ts sm s' tr' Hkids Hn Hfm.
  induction (drop 1 (links r)) as [|a l IHl]; intros ts sm s' tr' Hkids Hn Hfm.
  { cbn in Hkids. apply Forall2_nil_inv_l in Hkids as ->. by apply Exists_nil in Hn. }
  rewrite for_each_cons_unfold in Hfm |- *.
  destruct (fm a sm) as [[sa ta] [[]|e|]] eqn:Ea; [|done..].
  destruct (for_each fm l sa) as [[sl tl] rl] eqn:El.
  unfold final_fs, trace_of, result_of in Hfm; cbn in Hfm.
  injection Hfm as -> <- ->.
  unfold fm, fn, process_link in Ea |- *. unfold dir_hrefs in Hkids. cbn in Hkids.
  destruct (a_href a) as [href|]; [|done].
  destruct (PyStr.endswith_slash href).
  - apply Forall2_cons_inv_l in Hkids as (t' & ts' & Hsrv' & Hkids' & ->).
    destruct (download_recursive urljoin remote n (urljoin url href)
                (child_local_dir outdir href) sm) as [[sn tn] rn] eqn:En.
    destruct rn as [[]|en|]; [| |done].
    + assert (download_recursive urljoin remote n (urljoin url href)
                (child_local_dir outdir href) sm = (sa, ta, Ret tt)) as Heq.
      { rewrite <- Ea. apply download_recursive_fuel_agree; [by rewrite En|by rewrite Ea]. }
      rewrite En in Heq. injection Heq as -> ->.
      apply Exists_cons in Hn as [Hn|Hn].
      * pose proof (IH m t' _ _ _ _ _ Hsrv' Ea Hn) as Hno. by rewrite En in Hno.
      * unfold final_fs, trace_of, result_of at 1; cbn.
        by eapply (IHl ts').
    + assert (download_recursive urljoin remote n (urljoin url href)
                (child_local_dir outdir href) sm = (sa, ta, Ret tt)) as Heq.
      { rewrite <- Ea. apply download_recursive_fuel_agree; [by rewrite En|by rewrite Ea]. }
      by rewrite En in Heq.
  - assert (∀ x : Fsys * list event * res unit,
              (if Pattern.pattern_match href
               then download_file remote (urljoin url href) outdir href
               else ret ()) sm = x →
              x = (sa, ta, Ret tt) →
              result_of (match x with
                         | (s1', t1', Ret _) =>
                             (final_fs (for_each fn l s1'),
                              (t1' ++ trace_of (for_each fn l s1'))%list,
                              result_of (for_each fn l s1'))
                         | (s1', t1', Raise e) => (s1', t1', Raise e)
                         | (s1', t1', NoFuel) => (s1', t1', NoFuel)
                         end) = NoFuel) as Hcase.
    { intros x _ ->. unfold result_of at 1; cbn. by eapply (IHl ts). }
    by apply Hcase.
Qed.

End Depth.

(** ** The first anchor and the written paths *)

Section Listing.
Context {Fsys : Type} `{FileSystem Fsys}.
Variable urljoin : string → string → string.
Variable remote : string → option response.

Lemma download_file_with_first g full_url outdir href (s : Fsys) :
  download_file (with_first remote g) full_url outdir href s =
  download_file remote full_url outdir href s.
Proof.
  rewrite !download_file_unfold. cbn. unfold with_first.
  destruct (remote full_url) as [r|]; cbn; [|done].
  assert (content (replace_first (g full_url) r) = content r) as ->; [|done].
  unfold replace_first. by destruct (links r).
Qed.

End Listing.

(** ** Strings and local paths *)

Section StringFacts.
Import PyStr.

Lemma string_app_cons c (a b : string) : String c a +:+ b = String c (a +:+ b).
Proof. reflexivity. Qed.

Lemma string_app_nil_l (b : string) : "" +:+ b = b.
Proof. reflexivity. Qed.

Lemma string_app_assoc (a b c : string) : (a +:+ b) +:+ c = a +:+ b +:+ c.
Proof.
  induction a as [|x a IH]; [done|]. by rewrite !string_app_cons, IH.
Qed.

Lemma string_app_nil_r (a : string) : a +:+ "" = a.
Proof. induction a as [|x a IH]; [done|]. by rewrite string_app_cons, IH. Qed.

Lemma lstrip_no_lead s : startswith_slash (lstrip_slash s) = false.
Proof.
  induction s as [|c r IH]; cbn; [done|]. destruct (is_slash c) eqn:E; [done|].
  cbn. exact E.
Qed.

Lemma rstrip_no_trail s : endswith_slash (rstrip_slash s) = false.
Proof.
  induction s as [|c r IH]; cbn; [done|].
  destruct (rstrip_slash r) as [|c' r'] eqn:E.
  - destruct (is_slash c) eqn:Ec; cbn; [done|exact Ec].
  - exact IH.
Qed.

Lemma lstrip_keeps_end s :
  endswith_slash s = false → endswith_slash (lstrip_slash s) = false.
Proof.
  induction s as [|c r IH]; cbn; [done|]. intros He.
  destruct (is_slash c) eqn:Ec; [|cbn; rewrite ?Ec; exact He].
  destruct r as [|c' r']; [done|]. by apply IH.
Qed.

(** What [strip("/")] returns neither starts nor ends with a separator. *)
Lemma strip_slash_clean s :
  startswith_slash (strip_slash s) = false ∧ endswith_slash (strip_slash s) = false.
Proof.
  split; [apply lstrip_no_lead|]. apply lstrip_keeps_end, rstrip_no_trail.
Qed.

Lemma no_slash_start n : no_slash n = true → startswith_slash n = false.
Proof. destruct n as [|c r]; cbn; [done|]. by destruct (is_slash c). Qed.

Lemma no_slash_end n : no_slash n = true → endswith_slash n = false.
Proof.
  induction n as [|c r IH]; cbn; [done|]. intros [Hc Hr]%andb_true_iff.
  destruct r; [by destruct (is_slash c)|by apply IH].
Qed.

Lemma rstrip_dir_href n : no_slash n = true → rstrip_slash (dir_href n) = n.
Proof.
  unfold dir_href. induction n as [|c r IH]; [done|].
  cbn. intros [Hc Hr]%andb_true_iff. rewrite string_app_cons. cbn.
  rewrite (IH Hr). destruct r; [by destruct (is_slash c)|done].
Qed.

Lemma lstrip_no_slash n : no_slash n = true → lstrip_slash n = n.
Proof. destruct n as [|c r]; cbn; [done|]. by destruct (is_slash c). Qed.

Lemma strip_dir_href n : no_slash n = true → strip_slash (dir_href n) = n.
Proof.
  intros Hn. unfold strip_slash. rewrite rstrip_dir_href by done.
  by apply lstrip_no_slash.
Qed.

Lemma endswith_dir_href n : endswith_slash (dir_href n) = true.
Proof.
  unfold dir_href. induction n as [|c r IH]; [done|].
  rewrite string_app_cons. cbn. destruct r; [done|exact IH].
Qed.

Lemma plain_name_no_slash n : plain_name n = true → no_slash n = true.
Proof. by intros [_ ?]%andb_true_iff. Qed.

Lemma plain_name_nonempty n : plain_name n = true → n ≠ "".
Proof. intros [Hn _]%andb_true_iff ->. done. Qed.

Lemma join_relative a n :
  startswith_slash n = false → OsPath.join a n = sep_prefix a +:+ n.
Proof.
  intros Hn. unfold OsPath.join, sep_prefix. rewrite Hn.
  destruct (String.eqb a "" || endswith_slash a)%bool; [done|].
  by rewrite string_app_assoc.
Qed.

Lemma endswith_app x y : y ≠ "" → endswith_slash (x +:+ y) = endswith_slash y.
Proof.
  intros Hy. induction x as [|c x IH]; [done|].
  rewrite string_app_cons. cbn. destruct (x +:+ y) eqn:E; [|exact IH].
  destruct x; [done|discriminate].
Qed.

Lemma sep_prefix_app x y :
  y ≠ "" → endswith_slash y = false → sep_prefix (x +:+ y) = x +:+ y +:+ "/".
Proof.
  intros Hy He. unfold sep_prefix. rewrite endswith_app, He by done.
  assert (String.eqb (x +:+ y) "" = false) as ->.
  { apply String.eqb_neq. destruct x; [done|discriminate]. }
  cbn. by rewrite string_app_assoc.
Qed.

Lemma endswith_drop_last href :
  endswith_slash href = true → href = dir_href (drop_last href).
Proof.
  unfold dir_href. induction href as [|c r IH]; [done|].
  cbn. destruct r as [|c' r'].
  - intros Hc%Ascii.eqb_eq. by rewrite Hc.
  - intros Hr. rewrite string_app_cons. f_equal. by apply IH.
Qed.

(** When the name of a directory entry has no separator in it, stripping
    the href and trimming its last character give the same name. *)
Lemma strip_is_trim_for_plain_names href :
  endswith_slash href = true → no_slash (drop_last href) = true →
  strip_slash href = drop_last href.
Proof.
  intros He Hn. rewrite (endswith_drop_last href He) at 1. by apply strip_dir_href.
Qed.

End StringFacts.

Section PathFacts.
Import PyStr.

Lemma join_names_cons n m r :
  join_names (n :: m :: r) = n +:+ "/" +:+ join_names (m :: r).
Proof. reflexivity. Qed.

Lemma join_names_snoc ns f :
  ns ≠ [] → join_names (ns ++ [f]) = join_names ns +:+ "/" +:+ f.
Proof.
  induction ns as [|n [|m r] IH]; intros Hne; [done|done|].
  change ((n :: m :: r) ++ [f])%list with (n :: m :: (r ++ [f]))%list.
  rewrite !join_names_cons.
  change (m :: (r ++ [f]))%list with ((m :: r) ++ [f])%list.
  rewrite IH by done. by rewrite !string_app_assoc.
Qed.

Lemma join_names_end ns :
  ns ≠ [] → Forall (λ n, plain_name n = true) ns →
  join_names ns ≠ "" ∧ endswith_slash (join_names ns) = false.
Proof.
  induction ns as [|n [|m r] IH]; intros Hne Hpl; [done| |].
  - apply Forall_cons in Hpl as [Hn _]. split.
    + by apply plain_name_nonempty.
    + by apply no_slash_end, plain_name_no_slash.
  - apply Forall_cons in Hpl as [Hn Hr].
    destruct (IH ltac:(done) Hr) as [Hj He].
    rewrite join_names_cons. split.
    + apply plain_name_nonempty in Hn. destruct n; [done|discriminate].
    + rewrite endswith_app by done. by rewrite (endswith_app "/") by done.
Qed.

Lemma child_local_dir_plain outdir n :
  plain_name n = true → child_local_dir outdir (dir_href n) = sep_prefix outdir +:+ n.
Proof.
  intros Hn%plain_name_no_slash. unfold child_local_dir.
  rewrite strip_dir_href by done. by apply join_relative, no_slash_start.
Qed.

Lemma local_dir_of_plain ns outdir :
  ns ≠ [] → Forall (λ n, plain_name n = true) ns →
  local_dir_of outdir (dir_href <$> ns) = sep_prefix outdir +:+ join_names ns.
Proof.
  revert outdir. induction ns as [|n [|m r] IH]; intros outdir Hne Hpl; [done| |].
  - apply Forall_cons in Hpl as [Hn _]. cbn. by apply child_local_dir_plain.
  - apply Forall_cons in Hpl as [Hn Hr].
    change (local_dir_of outdir (dir_href <$> n :: m :: r))
      with (local_dir_of (child_local_dir outdir (dir_href n)) (dir_href <$> m :: r)).
    rewrite IH, child_local_dir_plain by done.
    rewrite sep_prefix_app, join_names_cons, !string_app_assoc; [done|..].
    + by apply plain_name_nonempty.
    + by apply no_slash_end, plain_name_no_slash.
Qed.

(** For plain names the local path of a file is the output root, a
    separator where one is due, and the names joined by separators. *)
Lemma local_file_of_plain ns f outdir :
  Forall (λ n, plain_name n = true) ns → plain_name f = true →
  local_file_of outdir (dir_href <$> ns) f = sep_prefix outdir +:+ join_names (ns ++ [f]).
Proof.
  intros Hns Hf. unfold local_file_of, file_local_path.
  rewrite join_relative by by apply no_slash_start, plain_name_no_slash.
  destruct ns as [|n r]; [done|].
  rewrite local_dir_of_plain, join_names_snoc by done.
  destruct (join_names_end (n :: r) ltac:(done) Hns) as [Hj He].
  by rewrite sep_prefix_app, !string_app_assoc.
Qed.

Lemma split_slash_name cur n :
  no_slash n = true → PosixFs.split_slash cur n = [cur +:+ n].
Proof.
  revert cur. induction n as [|c r IH]; intros cur Hn.
  - cbn. by rewrite string_app_nil_r.
  - cbn in Hn. apply andb_true_iff in Hn as [Hc Hr]. cbn.
    destruct (is_slash c); [done|]. rewrite IH by done.
    by rewrite string_app_assoc.
Qed.

Lemma split_slash_sep cur n x :
  no_slash n = true →
  PosixFs.split_slash cur (n +:+ "/" +:+ x) = (cur +:+ n) :: PosixFs.split_slash "" x.
Proof.
  revert cur. induction n as [|c r IH]; intros cur Hn.
  - cbn. by rewrite string_app_nil_r.
  - cbn in Hn. apply andb_true_iff in Hn as [Hc Hr].
    rewrite string_app_cons. cbn.
    destruct (is_slash c); [done|]. rewrite IH by done.
    by rewrite string_app_assoc.
Qed.

Lemma split_join_names l :
  l ≠ [] → Forall (λ n, no_slash n = true) l →
  PosixFs.split_slash "" (join_names l) = l.
Proof.
  induction l as [|n [|m r] IH]; intros Hne Hl; [done| |].
  - apply Forall_cons in Hl as [Hn _]. cbn. by rewrite split_slash_name.
  - apply Forall_cons in Hl as [Hn Hr].
    rewrite join_names_cons, split_slash_sep by done. by rewrite IH.
Qed.

Lemma local_file_of_plain_inj outdir ns f ns' f' :
  Forall (λ n, plain_name n = true) (f :: ns) →
  Forall (λ n, plain_name n = true) (f' :: ns') →
  local_file_of outdir (dir_href <$> ns) f = local_file_of outdir (dir_href <$> ns') f' →
  ns = ns' ∧ f = f'.
Proof.
  intros [Hf Hns]%Forall_cons [Hf' Hns']%Forall_cons Heq.
  rewrite !local_file_of_plain in Heq by done.
  apply (inj (String.append _)) in Heq.
  apply (f_equal (PosixFs.split_slash "")) in Heq.
  rewrite !split_join_names in Heq.
  - by apply app_inj_tail in Heq.
  - by destruct ns'.
  - apply Forall_app. split; [|by constructor; [apply plain_name_no_slash|]].
    eapply Forall_impl; [exact Hns'|]. intros. by apply plain_name_no_slash.
  - by destruct ns.
  - apply Forall_app. split; [|by constructor; [apply plain_name_no_slash|]].
    eapply Forall_impl; [exact Hns|]. intros. by apply plain_name_no_slash.
Qed.

End PathFacts.

(** ** The POSIX-like file system obeys the laws *)

Section PosixFacts.
Import PosixFs.

Lemma keeps_refl s : keeps s s.
Proof. by intros k. Qed.

Lemma keeps_trans s1 s2 s3 : keeps s1 s2 → keeps s2 s3 → keeps s1 s3.
Proof.
  intros H12 H23 k. destruct (H12 k) as [? ?], (H23 k) as [? ?]. split; auto.
Qed.

Lemma node_at_insert_eq (s : fs) k n : is_Some (node_at (<[k := n]> s) k).
Proof.
  unfold node_at. destruct (always_there k); [done|]. by rewrite lookup_insert_eq.
Qed.

Lemma node_at_insert_ne (s : fs) k k' n :
  k ≠ k' → node_at (<[k := n]> s) k' = node_at s k'.
Proof.
  intros Hne. unfold node_at. destruct (always_there k'); [done|].
  by rewrite lookup_insert_ne.
Qed.

Lemma keeps_insert (s : fs) k n : node_at s k ≠ Some NDir → keeps s (<[k := n]> s).
Proof.
  intros Hk k'. destruct (decide (k = k')) as [<-|Hne].
  - split; [done|]. intros _. apply node_at_insert_eq.
  - by rewrite node_at_insert_ne.
Qed.

Lemma mk_from_keeps todo : ∀ done s, keeps s (mk_from done todo s).1.
Proof.
  induction todo as [|c rest IH]; intros done s; [apply keeps_refl|].
  cbn. destruct (node_at s (done ++ [c])) as [[|data]|] eqn:E.
  - apply IH.
  - apply keeps_refl.
  - eapply keeps_trans; [|apply IH]. apply keeps_insert. by rewrite E.
Qed.

Lemma node_at_insert_dir (s : fs) k :
  node_at s k = None → node_at (<[k := NDir]> s) k = Some NDir.
Proof.
  unfold node_at. destruct (always_there k); [done|]. intros _.
  by rewrite lookup_insert_eq.
Qed.

Lemma mk_from_creates todo : ∀ done s,
  (mk_from done todo s).2 = None →
  node_at s done = Some NDir →
  node_at (mk_from done todo s).1 (done ++ todo) = Some NDir.
Proof.
  induction todo as [|c rest IH]; intros done s Hok Hdone.
  - cbn. by rewrite app_nil_r.
  - cbn in *. rewrite (cons_middle c done rest), app_assoc.
    destruct (node_at s (done ++ [c])) as [[|data]|] eqn:E.
    + by apply IH.
    + done.
    + apply IH; [done|]. by apply node_at_insert_dir.
Qed.

Lemma keeps_fs_le (s s' : fs) : keeps s s' → fs_le s s'.
Proof.
  intros Hk p. destruct (Hk (resolve p)) as [Hdir Hsome]. cbn.
  unfold posix_exists, posix_isdir.
  destruct (negb (String.eqb p "")); cbn; [|done]. split.
  - destruct (node_at s (resolve p)) as [n|]; [|done]. intros _.
    by destruct (Hsome ltac:(done)) as [n' ->].
  - destruct (node_at s (resolve p)) as [[|?]|]; [|done..]. intros _.
    by rewrite Hdir.
Qed.

Lemma posix_makedirs_keeps (d : string) (s : fs) : keeps s (posix_makedirs d s).1.
Proof.
  unfold posix_makedirs. destruct (String.eqb d ""); [apply keeps_refl|].
  destruct (posix_isdir d s); [apply keeps_refl|apply mk_from_keeps].
Qed.

Lemma posix_write_keeps (p : string) (b : list byte) (s : fs) : keeps s (posix_write p b s).1.
Proof.
  unfold posix_write. destruct (String.eqb p ""); [apply keeps_refl|].
  destruct (node_at s (removelast (resolve p))) as [[|?]|]; try apply keeps_refl.
  destruct (node_at s (resolve p)) as [[|?]|] eqn:E; try apply keeps_refl.
  - apply keeps_insert. by rewrite E.
  - apply keeps_insert. by rewrite E.
Qed.

Lemma posix_laws : FileSystemLaws fs.
Proof.
  split.
  - intros d s. apply keeps_fs_le, posix_makedirs_keeps.
  - intros d s. cbn. unfold posix_makedirs.
    destruct (String.eqb d "") eqn:Ed; [done|].
    destruct (posix_isdir d s) eqn:Ei; [done|]. intros Hok.
    unfold posix_isdir. rewrite Ed. cbn.
    pose proof (mk_from_creates (resolve d) [] s Hok eq_refl) as Hn.
    rewrite app_nil_l in Hn. by rewrite Hn.
  - intros d s. cbn. intros Hd. unfold posix_makedirs. rewrite Hd.
    unfold posix_isdir in Hd. by destruct (String.eqb d "").
  - intros p b s. apply keeps_fs_le, posix_write_keeps.
  - intros p b s. cbn. unfold posix_write, posix_exists.
    destruct (String.eqb p ""); [done|]. cbn.
    destruct (node_at s (removelast (resolve p))) as [[|?]|]; [|done..].
    destruct (node_at s (resolve p)) as [[|?]|]; [done|..]; cbn; intros _.
    + by destruct (node_at_insert_eq s (resolve p) (NFile b)) as [n ->].
    + by destruct (node_at_insert_eq s (resolve p) (NFile b)) as [n ->].
Qed.

End PosixFacts.

(** ** The crawler at work *)

Section Examples.
Import PyStr OsPath Pattern Sites PosixFs.

Example strip_both_ends : strip_slash "//a/b//" = "a/b".
Proof. reflexivity. Qed.

Example strip_only_slashes : strip_slash "///" = "".
Proof. reflexivity. Qed.

Example join_relative_name : join "data" "2021" = "data/2021".
Proof. reflexivity. Qed.

Example join_after_separator : join "data/" "2021" = "data/2021".
Proof. reflexivity. Qed.

Example join_absolute : join "data" "/2021" = "/2021".
Proof. reflexivity. Qed.

Example join_empty_name : join "data" "" = "data/".
Proof. reflexivity. Qed.

Example pattern_hit : pattern_match "seaice_extent_v4.0.tif" = true.
Proof. reflexivity. Qed.

Example pattern_dots_are_wildcards : pattern_match "extent_v4x0ytif" = true.
Proof. reflexivity. Qed.

Example pattern_before_final_newline :
  pattern_match (String.append "extent_v4.0.tif" (String newline "")) = true.
Proof. reflexivity. Qed.

Example pattern_miss : pattern_match "readme.txt" = false.
Proof. reflexivity. Qed.

Example pattern_miss_directory : pattern_match "subdir/" = false.
Proof. reflexivity. Qed.

(** A crawl of the two-level archive: the file of [2021/] lands under
    [data/2021], [readme.txt] is passed over, and [data/empty] is made
    although nothing is written below it. *)
Example archive_crawl :
  trace_of (crawl site_archive 2 empty_fs) =
    [EvMakedirs "data"; EvList "http://h/r/";
     EvMakedirs "data/2021"; EvList "http://h/r/2021/";
     EvPrint "http://h/r/2021/N_20210101_extent_v4.0.tif";
     EvFetch "http://h/r/2021/N_20210101_extent_v4.0.tif";
     EvWrite "data/2021/N_20210101_extent_v4.0.tif" tif_bytes;
     EvMakedirs "data/empty"; EvList "http://h/r/empty/"] ∧
  result_of (crawl site_archive 2 empty_fs) = Ret tt ∧
  read_file "data/2021/N_20210101_extent_v4.0.tif"
    (final_fs (crawl site_archive 2 empty_fs)) = Some tif_bytes ∧
  posix_isdir "data/empty" (final_fs (crawl site_archive 2 empty_fs)) = true ∧
  posix_exists "data/readme.txt" (final_fs (crawl site_archive 2 empty_fs)) = false.
Proof. repeat split; by vm_compute. Qed.

(** Of three matching files the first is left alone. *)
Example first_of_three_is_left_alone :
  trace_of (crawl site_abc 1 empty_fs) =
    [EvMakedirs "data"; EvList "http://h/r/";
     EvPrint "http://h/r/B_extent_v4.0.tif"; EvFetch "http://h/r/B_extent_v4.0.tif";
     EvWrite "data/B_extent_v4.0.tif" tif_bytes;
     EvPrint "http://h/r/C_extent_v4.0.tif"; EvFetch "http://h/r/C_extent_v4.0.tif";
     EvWrite "data/C_extent_v4.0.tif" tif_bytes] ∧
  posix_exists "data/A_extent_v4.0.tif" (final_fs (crawl site_abc 1 empty_fs)) = false.
Proof. repeat split; by vm_compute. Qed.

End Examples.

(** * The claims *)

Section Claims.
Import Sites PosixFs.

(** C1, as stated, fails. The listing of [2021/] cannot be fetched: the
    exception ends the whole crawl, and the sibling [2022/], whose listing
    and matching file the server would deliver, is never listed and its
    file never written. Likewise a file whose GET fails ends the crawl
    before the next file is looked at. *)
Lemma failed_listing_stops_the_siblings :
  site_years "http://h/r/2021/" = None ∧
  site_years "http://h/r/2022/" =
    Some (listing [parent_link; link "N_20220101_extent_v4.0.tif"]) ∧
  site_years "http://h/r/2022/N_20220101_extent_v4.0.tif" = Some tif_file ∧
  trace_of (crawl site_years 3 empty_fs) =
    [EvMakedirs "data"; EvList "http://h/r/";
     EvMakedirs "data/2021"; EvList "http://h/r/2021/"] ∧
  result_of (crawl site_years 3 empty_fs) = Raise RequestException ∧
  posix_exists "data/2022/N_20220101_extent_v4.0.tif"
    (final_fs (crawl site_years 3 empty_fs)) = false ∧
  site_broken_file "http://h/r/b_extent_v4.0.tif" = Some tif_file ∧
  trace_of (crawl site_broken_file 3 empty_fs) =
    [EvMakedirs "data"; EvList "http://h/r/";
     EvPrint "http://h/r/a_extent_v4.0.tif"; EvFetch "http://h/r/a_extent_v4.0.tif"] ∧
  result_of (crawl site_broken_file 3 empty_fs) = Raise RequestException ∧
  posix_exists "data/b_extent_v4.0.tif"
    (final_fs (crawl site_broken_file 3 empty_fs)) = false.
Proof. repeat split; by vm_compute. Qed.

(** C1, amended. Nothing catches an exception: when the listing of a
    directory cannot be fetched the call raises, and whenever the
    processing of an entry raises (a sub-directory whose crawl raised, a
    download that raised), the enclosing call ends there with the same
    exception. What was done before stays, and the entries after the
    failing one are not processed: they do not occur in the run. *)
Theorem exception_ends_the_crawl
    {Fsys : Type} `{FileSystem Fsys}
    (urljoin : string → string → string) (remote : string → option response)
    (fuel : nat) (url outdir : string) (s s0 : Fsys) :
  makedirs outdir s = (s0, None) →
  (remote url = None →
   download_recursive urljoin remote (S fuel) url outdir s =
     (s0, [EvMakedirs outdir; EvList url], Raise RequestException)) ∧
  (∀ r before a after s1 t1 s2 t2 e,
     remote url = Some r →
     drop 1 (links r) = (before ++ a :: after)%list →
     for_each (process_link urljoin remote (download_recursive urljoin remote fuel)
                 url outdir) before s0 = (s1, t1, Ret tt) →
     process_link urljoin remote (download_recursive urljoin remote fuel)
       url outdir a s1 = (s2, t2, Raise e) →
     download_recursive urljoin remote (S fuel) url outdir s =
       (s2, (EvMakedirs outdir :: EvList url :: t1 ++ t2)%list, Raise e)).
Proof.
  intros Hmk. split.
  - intros Hr. by rewrite download_recursive_unfold, Hmk, Hr.
  - intros r before a after s1 t1 s2 t2 e Hr Hl Hbefore Ha.
    rewrite download_recursive_unfold, Hmk. cbn. rewrite Hr, Hl.
    by rewrite (for_each_raise _ before a after s0 s1 t1 s2 t2 e Hbefore Ha).
Qed.

Lemma exception_ends_the_crawl_witness :
  crawl site_years 3 empty_fs =
    ((posix_makedirs "data/2021" (posix_makedirs "data" empty_fs).1).1,
     [EvMakedirs "data"; EvList "http://h/r/";
      EvMakedirs "data/2021"; EvList "http://h/r/2021/"],
     Raise RequestException).
Proof.
  pose proof (exception_ends_the_crawl urljoin_rel site_years 2 root "data"
                empty_fs (posix_makedirs "data" empty_fs).1) as Hthm.
  destruct Hthm as [_ Hentry]; [reflexivity|].
  apply (Hentry (listing [parent_link; link "2021/"; link "2022/"])
           [] (link "2021/") [link "2022/"]
           (posix_makedirs "data" empty_fs).1 []
           (posix_makedirs "data/2021" (posix_makedirs "data" empty_fs).1).1
           [EvMakedirs "data/2021"; EvList "http://h/r/2021/"]
           RequestException);
    reflexivity.
Defined.

(** C2, as stated, fails. A file of no bytes is at the local path: there is
    no non-empty object there, and yet the download is skipped, nothing is
    fetched and the file stays empty. *)
Lemma empty_file_is_skipped :
  read_file "data/N_extent_v4.0.tif" fs_empty_file = Some [] ∧
  nonempty_object "data/N_extent_v4.0.tif" fs_empty_file = false ∧
  site_one_file "http://h/r/N_extent_v4.0.tif" = Some tif_file ∧
  crawl site_one_file 3 fs_empty_file =
    (fs_empty_file, [EvMakedirs "data"; EvList "http://h/r/"], Ret tt).
Proof. repeat split; by vm_compute. Qed.

(** C2, amended. A matched file is skipped exactly when [os.path.exists]
    holds of its local path, whatever is there; it is then left untouched
    and no call is made. Otherwise the file is announced and fetched, and
    the body of the response is written to the local path. *)
Theorem download_skipped_iff_path_exists
    {Fsys : Type} `{FileSystem Fsys}
    (remote : string → option response)
    (full_url outdir href : string) (s : Fsys) :
  let path := file_local_path outdir href in
  let x := download_file remote full_url outdir href s in
  (path_exists path s = true ∧ x = (s, [], Ret tt)) ∨
  (path_exists path s = false ∧
   ∃ t, trace_of x = EvPrint full_url :: EvFetch full_url :: t ∧
        ∀ r, remote full_url = Some r →
             t = [EvWrite path (content r)] ∧
             final_fs x = (write_file path (content r) s).1).
Proof.
  cbn zeta. rewrite download_file_unfold. cbn zeta.
  destruct (path_exists (file_local_path outdir href) s); [by left|right].
  split; [done|]. destruct (remote full_url) as [r|].
  - eexists. split; [done|]. by intros r' [= <-].
  - eexists. split; [done|]. by intros r' [=].
Qed.

(** C3, as stated, fails. The site is a finite tree of two directories. One
    file entry has a href with a directory part that does not exist
    locally: the first run fetches the file and raises when it opens the
    local path. Run again on what the first run left, the crawl fetches
    the same file again. *)
Lemma second_run_fetches_again_after_a_failed_write :
  serves urljoin_rel site_nested_href root tree_nested_href ∧
  result_of (crawl site_nested_href 3 empty_fs) = Raise FileNotFoundError ∧
  crawl site_nested_href 3 (final_fs (crawl site_nested_href 3 empty_fs)) =
    (final_fs (crawl site_nested_href 3 empty_fs),
     [EvMakedirs "data"; EvList "http://h/r/";
      EvPrint "http://h/r/sub/N_extent_v4.0.tif";
      EvFetch "http://h/r/sub/N_extent_v4.0.tif";
      EvWrite "data/sub/N_extent_v4.0.tif" tif_bytes],
     Raise FileNotFoundError).
Proof.
  split; [|split; by vm_compute].
  eapply serves_node; [reflexivity|]. cbn.
  constructor; [|constructor].
  eapply serves_node; [reflexivity|]. cbn. constructor.
Qed.

(** C3, amended. When a run of the crawl returns without raising, a second
    run against the same remote side, started on the file system the first
    one left, returns too, leaves that file system as it is, and neither
    announces, fetches nor writes any file: its only calls are
    [os.makedirs] on directories that exist and the GETs of the listings. *)
Theorem second_run_transfers_nothing
    {Fsys : Type} `{FileSystem Fsys}
    (urljoin : string → string → string) (remote : string → option response)
    (fuel : nat) (url outdir : string) (s s1 : Fsys) (t1 : list event) :
  FileSystemLaws Fsys →
  download_recursive urljoin remote fuel url outdir s = (s1, t1, Ret tt) →
  ∃ t2, download_recursive urljoin remote fuel url outdir s1 = (s1, t2, Ret tt) ∧
        Forall (λ ev, is_transfer ev = false) t2.
Proof.
  intros laws Hrun.
  exact (download_recursive_replays urljoin remote laws fuel url outdir
           s s1 t1 Hrun s1 (fs_le_refl s1)).
Qed.

Lemma second_run_transfers_nothing_witness :
  ∃ t2, crawl site_archive 3 (final_fs (crawl site_archive 3 empty_fs)) =
          (final_fs (crawl site_archive 3 empty_fs), t2, Ret tt) ∧
        Forall (λ ev, is_transfer ev = false) t2.
Proof.
  apply (second_run_transfers_nothing urljoin_rel site_archive 3 root "data"
           empty_fs (final_fs (crawl site_archive 3 empty_fs))
           (trace_of (crawl site_archive 3 empty_fs)) posix_laws).
  vm_compute. reflexivity.
Defined.

(** C4, as stated, fails. The server answers the GET of the file with
    status 404: the download does not fail, and the body of the error page
    is written to the local path. *)
Lemma error_status_body_is_written :
  status_code <$> site_404 "http://h/r/N_extent_v4.0.tif" = Some 404 ∧
  content <$> site_404 "http://h/r/N_extent_v4.0.tif" = Some not_found_bytes ∧
  trace_of (crawl site_404 3 empty_fs) =
    [EvMakedirs "data"; EvList "http://h/r/";
     EvPrint "http://h/r/N_extent_v4.0.tif"; EvFetch "http://h/r/N_extent_v4.0.tif";
     EvWrite "data/N_extent_v4.0.tif" not_found_bytes] ∧
  result_of (crawl site_404 3 empty_fs) = Ret tt ∧
  read_file "data/N_extent_v4.0.tif" (final_fs (crawl site_404 3 empty_fs)) =
    Some not_found_bytes.
Proof. repeat split; by vm_compute. Qed.

(** C4, amended. The download of a file that is not there locally raises in
    two cases only: [requests.get] itself raises, and then nothing is
    written; or the write raises, and that exception is the result. The
    status of the response is never looked at: with any status, the body is
    what is written to the local path. *)
Theorem download_raises_without_response_or_on_write
    {Fsys : Type} `{FileSystem Fsys}
    (remote : string → option response)
    (full_url outdir href : string) (s : Fsys) :
  path_exists (file_local_path outdir href) s = false →
  (remote full_url = None →
   download_file remote full_url outdir href s =
     (s, [EvPrint full_url; EvFetch full_url], Raise RequestException)) ∧
  (∀ r, remote full_url = Some r →
   download_file remote full_url outdir href s =
     ((write_file (file_local_path outdir href) (content r) s).1,
      [EvPrint full_url; EvFetch full_url;
       EvWrite (file_local_path outdir href) (content r)],
      match (write_file (file_local_path outdir href) (content r) s).2 with
      | None => Ret tt
      | Some e => Raise e
      end)).
Proof.
  intros Hex. rewrite download_file_unfold. cbn zeta. rewrite Hex. split.
  - by intros ->.
  - by intros r ->.
Qed.

Lemma download_raises_without_response_or_on_write_witness :
  download_file site_404 "http://h/r/N_extent_v4.0.tif" "data"
    "N_extent_v4.0.tif" (posix_makedirs "data" empty_fs).1 =
  ((posix_write "data/N_extent_v4.0.tif" not_found_bytes
      (posix_makedirs "data" empty_fs).1).1,
   [EvPrint "http://h/r/N_extent_v4.0.tif"; EvFetch "http://h/r/N_extent_v4.0.tif";
    EvWrite "data/N_extent_v4.0.tif" not_found_bytes],
   Ret tt).
Proof.
  destruct (download_raises_without_response_or_on_write site_404
              "http://h/r/N_extent_v4.0.tif" "data" "N_extent_v4.0.tif"
              (posix_makedirs "data" empty_fs).1) as [_ Hresp]; [reflexivity|].
  exact (Hresp not_found eq_refl).
Defined.

(** C5: the entry without [href] is not passed through. [link.get("href")]
    is [None] for it and [href.endswith] raises: the crawl ends with
    [AttributeError] at that anchor, and the matching file listed after it
    is neither fetched nor written. *)
Theorem anchor_without_href_raises :
  (∀ {Fsys : Type} `{FileSystem Fsys} urljoin remote recurse url outdir txt (s : Fsys),
     process_link urljoin remote recurse url outdir (Anchor None txt) s =
       (s, [], Raise AttributeError)) ∧
  crawl site_no_href 3 empty_fs =
    ((posix_makedirs "data" empty_fs).1,
     [EvMakedirs "data"; EvList "http://h/r/"], Raise AttributeError) ∧
  site_no_href "http://h/r/N_extent_v4.0.tif" = Some tif_file ∧
  Pattern.pattern_match "N_extent_v4.0.tif" = true ∧
  posix_exists "data/N_extent_v4.0.tif" (final_fs (crawl site_no_href 3 empty_fs)) = false.
Proof.
  split; [by intros|].
  repeat split; by vm_compute.
Qed.

(** C7, as stated, fails. [href.strip("/")] removes the separators at both
    ends, as many as there are, not the trailing one alone: for the href
    [/a/] the crawler takes [data/a], where trimming the last character
    gives the absolute path [/a]. *)
Lemma leading_separators_are_stripped_too :
  PyStr.endswith_slash "/a/" = true ∧
  child_local_dir "data" "/a/" = "data/a" ∧
  SpecWording.spec_child_local_dir "data" "/a/" = "/a" ∧
  PyStr.endswith_slash "a//" = true ∧
  child_local_dir "data" "a//" = "data/a" ∧
  SpecWording.spec_child_local_dir "data" "a//" = "data/a/".
Proof. repeat split; by vm_compute. Qed.

(** C7, amended. For an entry whose href ends with a separator the crawler
    recurses with the resolved URL and the local directory
    [join(outdir, href.strip("/"))]: the name with every leading and every
    trailing separator removed, which is the name with its last character
    trimmed when the name has no separator in it. The recursive call begins
    with [os.makedirs] on that directory, which changes nothing when the
    directory exists. *)
Theorem child_directory_mapping
    {Fsys : Type} `{FileSystem Fsys}
    (urljoin : string → string → string) (remote : string → option response)
    (fuel : nat) (url outdir href txt : string) (s : Fsys) :
  FileSystemLaws Fsys →
  PyStr.endswith_slash href = true →
  let child := OsPath.join outdir (PyStr.strip_slash href) in
  process_link urljoin remote (download_recursive urljoin remote (S fuel))
    url outdir (Anchor (Some href) txt) s =
    download_recursive urljoin remote (S fuel) (urljoin url href) child s ∧
  PyStr.startswith_slash (PyStr.strip_slash href) = false ∧
  PyStr.endswith_slash (PyStr.strip_slash href) = false ∧
  (PyStr.no_slash (PyStr.drop_last href) = true →
   child = SpecWording.spec_child_local_dir outdir href) ∧
  (∃ t, trace_of (download_recursive urljoin remote (S fuel) (urljoin url href) child s) =
        EvMakedirs child :: t) ∧
  (isdir child s = true → makedirs child s = (s, None)).
Proof.
  intros laws He child. split; [|split; [|split; [|split; [|split]]]].
  - unfold process_link. cbn. by rewrite He.
  - apply strip_slash_clean.
  - apply strip_slash_clean.
  - intros Hn. unfold child, SpecWording.spec_child_local_dir.
    by rewrite strip_is_trim_for_plain_names.
  - rewrite download_recursive_unfold. cbn zeta.
    destruct (makedirs child s) as [sm [e|]]; cbn [snd fst]; [by eexists|].
    destruct (remote (urljoin url href)); by eexists.
  - apply (makedirs_exist_ok laws).
Qed.

Lemma child_directory_mapping_witness :
  process_link urljoin_rel site_archive (download_recursive urljoin_rel site_archive 2)
    root "data" (link "2021/") (posix_makedirs "data" empty_fs).1 =
  download_recursive urljoin_rel site_archive 2 "http://h/r/2021/" "data/2021"
    (posix_makedirs "data" empty_fs).1.
Proof.
  exact (proj1 (child_directory_mapping urljoin_rel site_archive 1 root "data"
                  "2021/" "2021/" (posix_makedirs "data" empty_fs).1
                  posix_laws eq_refl)).
Defined.

(** C8. The first anchor of a listing is skipped and the others are the
    entries. Replace the first anchor of every listing by any anchor at
    all, and every crawl runs exactly as before, with the same calls in
    the same order, the same result and the same file system at the end.
    And when the listing delivered is [a :: rest], the call, once the
    local directory is made and the listing fetched, is the loop body run
    on the anchors of [rest], all of them, in their order: for the anchors
    [A, B, C], on [B] and then on [C]. *)
Theorem first_anchor_is_skipped
    {Fsys : Type} `{FileSystem Fsys}
    (urljoin : string → string → string) (remote : string → option response)
    (fuel : nat) (url outdir : string) (s : Fsys) :
  (∀ g : string → anchor,
     download_recursive urljoin (with_first remote g) fuel url outdir s =
     download_recursive urljoin remote fuel url outdir s) ∧
  (∀ r a rest s0,
     remote url = Some r → links r = a :: rest →
     makedirs outdir s = (s0, None) →
     let body := process_link urljoin remote
                   (download_recursive urljoin remote fuel) url outdir in
     download_recursive urljoin remote (S fuel) url outdir s =
       (final_fs (for_each body rest s0),
        EvMakedirs outdir :: EvList url :: trace_of (for_each body rest s0),
        result_of (for_each body rest s0)) ∧
     ∀ b c, rest = [b; c] →
       for_each body rest s0 = (body b ;; body c ;; ret tt) s0).
Proof.
  split.
  - intros g. revert url outdir s.
    induction fuel as [|fuel' IH]; intros url outdir s; [done|].
    rewrite !download_recursive_unfold. cbn. unfold with_first at 1.
    destruct (makedirs outdir s) as [sm [e|]]; cbn; [done|].
    destruct (remote url) as [r|]; cbn; [|done].
    assert (drop 1 (links (replace_first (g url) r)) = drop 1 (links r)) as ->.
    { unfold replace_first. destruct (links r) eqn:E; cbn; by rewrite ?E. }
    rewrite (for_each_ext _
      (process_link urljoin remote (download_recursive urljoin remote fuel') url outdir));
      [done|].
    intros a s' _. unfold process_link.
    destruct (a_href a) as [href|]; [|done].
    destruct (PyStr.endswith_slash href); [apply IH|].
    destruct (Pattern.pattern_match href); [apply download_file_with_first|done].
  - intros r a rest s0 Hr Hl Hmk body. split.
    + by rewrite download_recursive_unfold, Hmk, Hr, Hl.
    + by intros b c ->.
Qed.

Lemma first_anchor_is_skipped_witness :
  links (listing [link "A_extent_v4.0.tif"; link "B_extent_v4.0.tif";
                  link "C_extent_v4.0.tif"]) =
    [link "A_extent_v4.0.tif"; link "B_extent_v4.0.tif"; link "C_extent_v4.0.tif"] ∧
  trace_of (crawl site_abc 1 empty_fs) =
    [EvMakedirs "data"; EvList "http://h/r/";
     EvPrint "http://h/r/B_extent_v4.0.tif"; EvFetch "http://h/r/B_extent_v4.0.tif";
     EvWrite "data/B_extent_v4.0.tif" tif_bytes;
     EvPrint "http://h/r/C_extent_v4.0.tif"; EvFetch "http://h/r/C_extent_v4.0.tif";
     EvWrite "data/C_extent_v4.0.tif" tif_bytes].
Proof.
  split; [reflexivity|].
  destruct (first_anchor_is_skipped urljoin_rel site_abc 0 root "data" empty_fs)
    as [_ Hrest].
  destruct (Hrest (listing [link "A_extent_v4.0.tif"; link "B_extent_v4.0.tif";
                            link "C_extent_v4.0.tif"])
              (link "A_extent_v4.0.tif")
              [link "B_extent_v4.0.tif"; link "C_extent_v4.0.tif"]
              (posix_makedirs "data" empty_fs).1 eq_refl eq_refl eq_refl)
    as [Hrun Hbc].
  unfold crawl. rewrite Hrun, (Hbc _ _ eq_refl). by vm_compute.
Defined.

(** C9, as stated, fails. The site is a tree of depth 2 and every listing
    of it is delivered; the crawl raises in the root directory, when it
    opens a local path whose directory is missing, before it enters the
    sub-directory. It ends with a single activation of
    [download_recursive]: one unit of fuel is enough. *)
Lemma crawl_can_end_above_the_deepest_directory :
  serves urljoin_rel site_nested_href root tree_nested_href ∧
  depth tree_nested_href = 2 ∧
  crawl site_nested_href 1 empty_fs =
    ((posix_makedirs "data" empty_fs).1,
     [EvMakedirs "data"; EvList "http://h/r/";
      EvPrint "http://h/r/sub/N_extent_v4.0.tif";
      EvFetch "http://h/r/sub/N_extent_v4.0.tif";
      EvWrite "data/sub/N_extent_v4.0.tif" tif_bytes],
     Raise FileNotFoundError).
Proof.
  split; [|split; by vm_compute].
  eapply serves_node; [reflexivity|]. cbn.
  constructor; [|constructor].
  eapply serves_node; [reflexivity|]. cbn. constructor.
Qed.

(** C9, amended. On a finite remote tree the crawl terminates: with as many
    nested activations as the tree is deep no call is cut short, and more
    fuel changes nothing. So the recursion is never deeper than the tree.
    It is exactly as deep when the crawl returns without raising: with
    fewer activations than the depth of the tree, such a crawl is cut
    short. *)
Theorem crawl_terminates_within_tree_depth
    {Fsys : Type} `{FileSystem Fsys}
    (urljoin : string → string → string) (remote : string → option response)
    (t : rtree) (url outdir : string) (s : Fsys) :
  serves urljoin remote url t →
  result_of (download_recursive urljoin remote (depth t) url outdir s) ≠ NoFuel ∧
  (∀ fuel : nat, (depth t ≤ fuel)%nat →
     download_recursive urljoin remote fuel url outdir s =
     download_recursive urljoin remote (depth t) url outdir s) ∧
  (result_of (download_recursive urljoin remote (depth t) url outdir s) = Ret tt →
   ∀ n : nat, (n < depth t)%nat →
     result_of (download_recursive urljoin remote n url outdir s) = NoFuel).
Proof.
  intros Hsrv.
  assert (result_of (download_recursive urljoin remote (depth t) url outdir s) ≠ NoFuel)
    as Hfuel by by apply (served_tree_has_fuel urljoin remote (depth t) t).
  split; [done|]. split.
  - intros fuel Hle. by apply download_recursive_fuel_le.
  - intros Hret n Hn.
    destruct (download_recursive urljoin remote (depth t) url outdir s)
      as [[s1 tr] r] eqn:Hrun.
    unfold result_of in Hret; cbn in Hret. subst r.
    by apply (completed_crawl_needs_depth urljoin remote n (depth t) t url outdir s s1 tr).
Qed.

Lemma crawl_terminates_within_tree_depth_witness :
  result_of (crawl site_archive 2 empty_fs) = Ret tt ∧
  result_of (crawl site_archive 1 empty_fs) = NoFuel ∧
  crawl site_archive 5 empty_fs = crawl site_archive 2 empty_fs.
Proof.
  assert (serves urljoin_rel site_archive root tree_archive) as Hsrv.
  { eapply serves_node; [reflexivity|]. cbn.
    constructor; [|constructor; [|constructor]].
    - eapply serves_node; [reflexivity|]. cbn. constructor.
    - eapply serves_node; [reflexivity|]. cbn. constructor. }
  destruct (crawl_terminates_within_tree_depth urljoin_rel site_archive
              tree_archive root "data" empty_fs Hsrv) as (_ & Hmore & Hless).
  split; [by vm_compute|]. split.
  - apply Hless; [by vm_compute|]. cbn. lia.
  - apply Hmore. cbn. lia.
Defined.

(** C10. Every activation of [download_recursive] makes the local directory
    first. Either [os.makedirs] raises, and then no listing is fetched; or
    the directory is made before the GET of the listing, and it is a
    directory in the file system the crawl leaves, however the crawl goes
    on: the listing may fail to be fetched, may be empty or may hold no
    matching file. *)
Theorem local_directory_is_made_before_the_listing
    {Fsys : Type} `{FileSystem Fsys}
    (urljoin : string → string → string) (remote : string → option response)
    (fuel : nat) (url outdir : string) (s : Fsys) :
  FileSystemLaws Fsys →
  let x := download_recursive urljoin remote (S fuel) url outdir s in
  (∃ e, (makedirs outdir s).2 = Some e ∧
        x = ((makedirs outdir s).1, [EvMakedirs outdir], Raise e)) ∨
  ((makedirs outdir s).2 = None ∧
   (∃ t, trace_of x = EvMakedirs outdir :: EvList url :: t) ∧
   isdir outdir (final_fs x) = true ∧
   (remote url = None →
    x = ((makedirs outdir s).1, [EvMakedirs outdir; EvList url],
         Raise RequestException))).
Proof.
  intros laws x. unfold x. clear x.
  rewrite download_recursive_unfold. cbn zeta.
  pose proof (makedirs_creates laws outdir s) as Hdir.
  destruct (makedirs outdir s) as [sm [e|]]; cbn [fst snd] in *.
  { left. by exists e. }
  right. split; [done|].
  destruct (remote url) as [r|].
  - split; [by eexists|]. split; [|done].
    unfold final_fs at 1. cbn [fst].
    apply (for_each_fs_le
             (process_link urljoin remote (download_recursive urljoin remote fuel)
                url outdir) (drop 1 (links r))).
    + intros a s' _. apply process_link_fs_le; [done|].
      intros. by apply download_recursive_fs_le.
    + by apply Hdir.
  - split; [by eexists|]. split; [|done]. by apply Hdir.
Qed.

Lemma local_directory_is_made_before_the_listing_witness :
  result_of (crawl (serve []) 1 empty_fs) = Raise RequestException ∧
  isdir "data" (final_fs (crawl (serve []) 1 empty_fs)) = true.
Proof.
  split; [by vm_compute|].
  destruct (local_directory_is_made_before_the_listing urljoin_rel (serve []) 0
              root "data" empty_fs posix_laws) as [(e & He & _)|(_ & _ & Hdir & _)].
  - vm_compute in He. discriminate He.
  - exact Hdir.
Defined.

End Claims.

(** * Further properties of the crawl *)

Section TraceInduction.
Context {Fsys : Type} `{FileSystem Fsys}.
Variable urljoin : string → string → string.
Variable remote : string → option response.

Lemma for_each_trace_closed {A} (P : list event → Prop) (body : A → M Fsys unit) l :
  P [] →
  (∀ t1 t2, P t1 → P t2 → P (t1 ++ t2)%list) →
  (∀ a s, a ∈ l → P (trace_of (body a s))) →
  ∀ s, P (trace_of (for_each body l s)).
Proof.
  intros Hnil Happ. induction l as [|a l IH]; intros Hbody s; [exact Hnil|].
  rewrite for_each_cons_unfold.
  pose proof (Hbody a s ltac:(left)) as Ha.
  destruct (body a s) as [[s1 t1] [[]|e|]]; try exact Ha.
  unfold trace_of at 1. cbn. apply Happ; [exact Ha|].
  apply IH. intros b s' Hb. apply Hbody. by right.
Qed.

(** To show that every trace of the crawl has a property that the empty
    trace has and that passes to concatenations, it is enough to look at
    the single calls, at the download of one matched entry of a delivered
    listing, and at the step from a directory entry to its parent. *)
Lemma crawl_trace_ind (P : string → string → list event → Prop) :
  (∀ u d, P u d []) →
  (∀ u d t1 t2, P u d t1 → P u d t2 → P u d (t1 ++ t2)%list) →
  (∀ u d, P u d [EvMakedirs d]) →
  (∀ u d, P u d [EvList u]) →
  (∀ u d r a h (s : Fsys),
     remote u = Some r → a ∈ drop 1 (links r) → a_href a = Some h →
     PyStr.endswith_slash h = false → Pattern.pattern_match h = true →
     P u d (trace_of (download_file remote (urljoin u h) d h s))) →
  (∀ u d r a h t,
     remote u = Some r → a ∈ drop 1 (links r) → a_href a = Some h →
     PyStr.endswith_slash h = true →
     P (urljoin u h) (child_local_dir d h) t → P u d t) →
  ∀ fuel u d (s : Fsys), P u d (trace_of (download_recursive urljoin remote fuel u d s)).
Proof.
  intros Hnil Happ Hmk Hlist Hfile Hdir.
  induction fuel as [|fuel IH]; intros u d s; [apply Hnil|].
  rewrite download_recursive_unfold. cbn zeta.
  destruct (makedirs d s) as [sm [e|]]; cbn [fst snd]; [apply Hmk|].
  destruct (remote u) as [r|] eqn:Hr.
  - unfold trace_of at 1. cbn [fst snd].
    apply (Happ u d [EvMakedirs d]); [apply Hmk|].
    apply (Happ u d [EvList u]); [apply Hlist|].
    apply (for_each_trace_closed (P u d)); [apply Hnil|apply Happ|].
    intros a s' Ha. unfold process_link.
    destruct (a_href a) as [h|] eqn:Hh; [|apply Hnil].
    destruct (PyStr.endswith_slash h) eqn:He.
    + by apply (Hdir u d r a h).
    + destruct (Pattern.pattern_match h) eqn:Hm; [|apply Hnil].
      by apply (Hfile u d r a h).
  - apply (Happ u d [EvMakedirs d] [EvList u]); [apply Hmk|apply Hlist].
Qed.

End TraceInduction.

Section RunInduction.
Context {Fsys : Type} `{FileSystem Fsys}.
Variable urljoin : string → string → string.
Variable remote : string → option response.

(** To show that every run of the crawl is good, in a sense [Q] that
    relates the file system at the start to the run, it is enough that a
    run that does nothing is good, that a good run followed by a good run
    is good, and that the single calls are good: [os.makedirs], the GET of
    a listing, the download of a file. *)
Lemma crawl_run_ind (Q : Fsys → Fsys * list event * res unit → Prop) :
  (∀ s r, Q s (s, [], r)) →
  (∀ s s1 t1 x, Q s (s1, t1, Ret tt) → Q s1 x →
     Q s (final_fs x, (t1 ++ trace_of x)%list, result_of x)) →
  (∀ d s, Q s (lift_status (makedirs d s) (EvMakedirs d))) →
  (∀ u s r, Q s (s, [EvList u], r)) →
  (∀ u d h s, Q s (download_file remote u d h s)) →
  ∀ fuel u d s, Q s (download_recursive urljoin remote fuel u d s).
Proof.
  intros Hskip Hseq Hmk Hlist Hfile.
  induction fuel as [|fuel IH]; intros u d s; [apply Hskip|].
  rewrite download_recursive_unfold. cbn zeta.
  pose proof (Hmk d s) as Hm. unfold lift_status in Hm.
  destruct (makedirs d s) as [sm [e|]]; cbn [fst snd] in *; [exact Hm|].
  destruct (remote u) as [r|].
  - set (l := drop 1 (links r)). clearbody l.
    set (body := process_link urljoin remote (download_recursive urljoin remote fuel) u d).
    assert (∀ s0, Q s0 (for_each body l s0)) as Hloop.
    { induction l as [|a l IHl]; intros s0; [apply Hskip|].
      rewrite for_each_cons_unfold.
      assert (Q s0 (body a s0)) as Ha.
      { unfold body, process_link. destruct (a_href a) as [h|]; [|apply Hskip].
        destruct (PyStr.endswith_slash h); [apply IH|].
        destruct (Pattern.pattern_match h); [apply Hfile|apply Hskip]. }
      destruct (body a s0) as [[s1 t1] [[]|e|]]; try exact Ha.
      exact (Hseq s0 s1 t1 (for_each body l s1) Ha (IHl s1)). }
    exact (Hseq s sm [EvMakedirs d]
             (final_fs (for_each body l sm),
              EvList u :: trace_of (for_each body l sm),
              result_of (for_each body l sm)) Hm
             (Hseq sm sm [EvList u] (for_each body l sm)
                (Hlist u sm (Ret tt)) (Hloop sm))).
  - apply (Hseq s sm [EvMakedirs d] (sm, [EvList u], Raise RequestException) Hm).
    apply Hlist.
Qed.

End RunInduction.

(** ** What the crawl writes, and where *)

Section Writes.
Context {Fsys : Type} `{FileSystem Fsys}.
Variable urljoin : string → string → string.
Variable remote : string → option response.
Hypothesis laws : FileSystemLaws Fsys.

Lemma write_paths_app t1 t2 :
  write_paths (t1 ++ t2) = (write_paths t1 ++ write_paths t2)%list.
Proof. apply omap_app. Qed.

Lemma fs_le_absent (s s' : Fsys) p :
  fs_le s s' → path_exists p s' = false → path_exists p s = false.
Proof.
  intros Hle Hp. destruct (path_exists p s) eqn:E; [|done].
  by rewrite (proj1 (Hle p) E) in Hp.
Qed.

Lemma download_recursive_careful fuel url outdir :
  careful (download_recursive urljoin remote fuel url outdir).
Proof.
  intros s.
  apply (crawl_run_ind urljoin remote
    (λ s x, fs_le s (final_fs x) ∧
            (∀ p, p ∈ write_paths (trace_of x) → path_exists p s = false) ∧
            NoDup (write_paths (trace_of x)) ∧
            (result_of x = Ret tt →
             ∀ p, p ∈ write_paths (trace_of x) → path_exists p (final_fs x) = true)));
    clear s fuel url outdir.
  - intros s r. split; [apply fs_le_refl|]. split; [by intros p ?%elem_of_nil|].
    split; [constructor|]. by intros _ p ?%elem_of_nil.
  - intros s s1 t1 [[s2 t2] r2] (Hle1 & Habs1 & Hnd1 & Hex1) (Hle2 & Habs2 & Hnd2 & Hex2).
    unfold final_fs, trace_of, result_of in *. cbn [fst snd] in *.
    rewrite write_paths_app.
    split; [by eapply fs_le_trans|]. split; [|split].
    + intros p [Hp|Hp]%elem_of_app; [by apply Habs1|].
      apply (fs_le_absent s s1); [done|by apply Habs2].
    + apply NoDup_app. split; [done|]. split; [|done].
      intros p Hp1 Hp2. specialize (Hex1 eq_refl p Hp1). specialize (Habs2 p Hp2).
      congruence.
    + intros Hret p [Hp|Hp]%elem_of_app; [|by apply Hex2].
      apply Hle2. by apply (Hex1 eq_refl).
  - intros d s. unfold lift_status, final_fs, trace_of, result_of. cbn.
    split; [apply (makedirs_keeps laws)|]. split; [by intros p ?%elem_of_nil|].
    split; [constructor|]. by intros _ p ?%elem_of_nil.
  - intros u s r. split; [apply fs_le_refl|]. split; [by intros p ?%elem_of_nil|].
    split; [constructor|]. by intros _ p ?%elem_of_nil.
  - intros u d h s. rewrite download_file_unfold. cbn zeta.
    destruct (path_exists (file_local_path d h) s) eqn:Hex.
    { split; [apply fs_le_refl|]. split; [by intros p ?%elem_of_nil|].
      split; [constructor|]. by intros _ p ?%elem_of_nil. }
    destruct (remote u) as [r|].
    + pose proof (write_creates laws (file_local_path d h) (content r) s) as Hw.
      pose proof (write_keeps laws (file_local_path d h) (content r) s) as Hk.
      destruct (write_file (file_local_path d h) (content r) s) as [sw [e|]];
        unfold final_fs, trace_of, result_of; cbn in *.
      * split; [done|]. split; [by intros p ->%list_elem_of_singleton|].
        split; [apply NoDup_singleton|done].
      * split; [done|]. split; [by intros p ->%list_elem_of_singleton|].
        split; [apply NoDup_singleton|].
        intros _ p ->%list_elem_of_singleton. by apply Hw.
    + split; [apply fs_le_refl|]. split; [by intros p ?%elem_of_nil|].
      split; [constructor|]. by intros _ p ?%elem_of_nil.
Qed.

End Writes.

Section TraceFacts.
Context {Fsys : Type} `{FileSystem Fsys}.
Variable urljoin : string → string → string.
Variable remote : string → option response.

Lemma download_file_trace_cases u d h (s : Fsys) :
  trace_of (download_file remote u d h s) = [] ∨
  (remote u = None ∧ trace_of (download_file remote u d h s) = [EvPrint u; EvFetch u]) ∨
  (∃ r, remote u = Some r ∧
        trace_of (download_file remote u d h s) =
          [EvPrint u; EvFetch u; EvWrite (file_local_path d h) (content r)]).
Proof.
  rewrite download_file_unfold. cbn zeta.
  destruct (path_exists _ s); [by left|right].
  destruct (remote u) as [r|]; [right; by exists r|by left].
Qed.

Lemma child_local_dir_extends d h : ∃ x, child_local_dir d h = d +:+ x.
Proof.
  unfold child_local_dir.
  rewrite join_relative by apply strip_slash_clean. unfold sep_prefix.
  destruct (String.eqb d "" || PyStr.endswith_slash d)%bool.
  - by eexists.
  - eexists. by rewrite string_app_assoc.
Qed.

Lemma file_local_path_extends d h :
  PyStr.startswith_slash h = false → ∃ x, file_local_path d h = d +:+ x.
Proof.
  intros Hh. unfold file_local_path. rewrite join_relative by done. unfold sep_prefix.
  destruct (String.eqb d "" || PyStr.endswith_slash d)%bool.
  - by eexists.
  - eexists. by rewrite string_app_assoc.
Qed.

Lemma file_local_path_absolute d h :
  PyStr.startswith_slash h = true → file_local_path d h = h.
Proof. intros Hh. unfold file_local_path, OsPath.join. by rewrite Hh. Qed.

End TraceFacts.

(** ** The crawl on the POSIX-like file system *)

Section PosixCrawl.
Import PosixFs.

Lemma posix_grows_refl (s : fs) : posix_grows s s.
Proof. by intros k n. Qed.

Lemma posix_grows_trans (s1 s2 s3 : fs) :
  posix_grows s1 s2 → posix_grows s2 s3 → posix_grows s1 s3.
Proof. intros H12 H23 k n Hk. by apply H23, H12. Qed.

Lemma posix_grows_insert (s : fs) (k : list string) (n : node) :
  node_at s k = None → posix_grows s (<[k := n]> s).
Proof.
  intros Hk k' n' Hk'. rewrite node_at_insert_ne; [done|]. intros ->. congruence.
Qed.

Lemma mk_from_grows (todo : list string) :
  ∀ (done : list string) (s : fs), posix_grows s (mk_from done todo s).1.
Proof.
  induction todo as [|c rest IH]; intros done s; [apply posix_grows_refl|].
  cbn. destruct (node_at s (done ++ [c])) as [[|data]|] eqn:E.
  - apply IH.
  - apply posix_grows_refl.
  - eapply posix_grows_trans; [|apply IH]. by apply posix_grows_insert.
Qed.

Lemma posix_makedirs_grows (d : string) (s : fs) : posix_grows s (posix_makedirs d s).1.
Proof.
  unfold posix_makedirs. destruct (String.eqb d ""); [apply posix_grows_refl|].
  destruct (posix_isdir d s); [apply posix_grows_refl|apply mk_from_grows].
Qed.

Lemma posix_absent (p : string) (s : fs) :
  posix_exists p s = false → p = "" ∨ node_at s (resolve p) = None.
Proof.
  unfold posix_exists. destruct (String.eqb_spec p ""); [by left|]. cbn.
  destruct (node_at s (resolve p)); [done|by right].
Qed.

Lemma posix_write_absent_grows (p : string) (b : list byte) (s : fs) :
  posix_exists p s = false → posix_grows s (posix_write p b s).1.
Proof.
  intros [->|Hk]%posix_absent; [apply posix_grows_refl|].
  unfold posix_write. destruct (String.eqb p ""); [apply posix_grows_refl|].
  destruct (node_at s (removelast (resolve p))) as [[|?]|]; try apply posix_grows_refl.
  rewrite Hk. by apply posix_grows_insert.
Qed.

Lemma posix_write_absent_reads (p : string) (b : list byte) (s : fs) :
  posix_exists p s = false → (posix_write p b s).2 = None →
  read_file p (posix_write p b s).1 = Some b.
Proof.
  intros Hex. unfold posix_write. destruct (String.eqb_spec p ""); [done|].
  apply posix_absent in Hex as [?|Hk]; [done|].
  destruct (node_at s (removelast (resolve p))) as [[|?]|]; [|done..].
  rewrite Hk. intros _. cbn. unfold read_file, node_at in *.
  destruct (always_there (resolve p)); [done|]. by rewrite lookup_insert_eq.
Qed.

Lemma read_file_grows (p : string) (b : list byte) (s s' : fs) :
  posix_grows s s' → read_file p s = Some b → read_file p s' = Some b.
Proof.
  intros Hg. unfold read_file.
  destruct (node_at s (resolve p)) as [[|data]|] eqn:E; [done| |done].
  by rewrite (Hg _ _ E).
Qed.

Lemma posix_crawl_keeps_and_lands
    (urljoin : string → string → string) (remote : string → option response)
    (fuel : nat) (url outdir : string) (s : fs) :
  let x := download_recursive urljoin remote fuel url outdir s in
  posix_grows s (final_fs x) ∧
  (result_of x = Ret tt →
   ∀ p b, EvWrite p b ∈ trace_of x → read_file p (final_fs x) = Some b).
Proof.
  cbn zeta.
  apply (crawl_run_ind urljoin remote
    (λ s x, posix_grows s (final_fs x) ∧
            (result_of x = Ret tt →
             ∀ p b, EvWrite p b ∈ trace_of x → read_file p (final_fs x) = Some b)));
    clear s fuel url outdir.
  - intros s r. split; [apply posix_grows_refl|]. by intros _ p b ?%elem_of_nil.
  - intros s s1 t1 [[s2 t2] r2] [Hg1 Hw1] [Hg2 Hw2].
    unfold final_fs, trace_of, result_of in *. cbn [fst snd] in *.
    split; [by eapply posix_grows_trans|].
    intros Hret p b [Hp|Hp]%elem_of_app; [|by apply Hw2].
    apply (read_file_grows p b s1 s2 Hg2). by apply Hw1.
  - intros d s. unfold lift_status, final_fs, trace_of, result_of. cbn.
    split; [apply posix_makedirs_grows|]. by intros _ p b ?%list_elem_of_singleton.
  - intros u s r. split; [apply posix_grows_refl|].
    by intros _ p b ?%list_elem_of_singleton.
  - intros u d h s. rewrite download_file_unfold. cbn zeta. cbn [path_exists posix_fs].
    destruct (posix_exists (file_local_path d h) s) eqn:Hex.
    { split; [apply posix_grows_refl|]. by intros _ p b ?%elem_of_nil. }
    destruct (remote u) as [r|].
    + cbn [write_file posix_fs].
      pose proof (posix_write_absent_grows _ (content r) s Hex) as Hg.
      pose proof (posix_write_absent_reads _ (content r) s Hex) as Hr.
      destruct (posix_write (file_local_path d h) (content r) s) as [sw [e|]];
        unfold final_fs, trace_of, result_of; cbn in *; split; try done.
      intros _ p b Hp.
      repeat (apply elem_of_cons in Hp as [Hp|Hp]; [try done|]);
        [|by apply elem_of_nil in Hp].
      injection Hp as -> ->. by apply Hr.
    + split; [apply posix_grows_refl|]. done.
Qed.

End PosixCrawl.

(** ** The two patterns *)

Section RegexFacts.
Import PyStr Pattern Regex.

Lemma at_end_iff tail : at_end tail = true ↔ tail = "" ∨ tail = String newline "".
Proof.
  unfold at_end. rewrite orb_true_iff, !String.eqb_eq. done.
Qed.

Lemma fits_nil m : fits [] m → m = "".
Proof. unfold fits. destruct m; [done|]. cbn. by inversion 1. Qed.

Lemma fits_cons i items m :
  fits (i :: items) m ↔ ∃ c m', m = String c m' ∧ item_matches i c = true ∧ fits items m'.
Proof.
  unfold fits. split.
  - destruct m as [|c m']; cbn; [by inversion 1|].
    intros [Hc Hm]%Forall2_cons. by exists c, m'.
  - intros (c & m' & -> & Hc & Hm). cbn. by constructor.
Qed.

Lemma match_items_fits items : ∀ s rest,
  match_items items s = Some rest → ∃ m, s = m +:+ rest ∧ fits items m.
Proof.
  induction items as [|i items IH]; intros s rest Hm.
  - cbn in Hm. injection Hm as <-. exists "". split; [done|constructor].
  - destruct s as [|c r]; [done|]. cbn in Hm.
    destruct (item_matches i c) eqn:Hc; [|done].
    destruct (IH r rest Hm) as (m & -> & Hf).
    exists (String c m). split; [done|]. apply fits_cons. by exists c, m.
Qed.

Lemma fits_match_items items : ∀ m rest,
  fits items m → match_items items (m +:+ rest) = Some rest.
Proof.
  induction items as [|i items IH]; intros m rest Hf.
  - apply fits_nil in Hf as ->. by destruct rest.
  - apply fits_cons in Hf as (c & m' & -> & Hc & Hf).
    rewrite string_app_cons. cbn. rewrite Hc. by apply IH.
Qed.

(** The meaning of the executable matcher: the string is a run of
    characters other than newline, then characters that fit the items,
    then the end, before which one newline may stand. *)
Lemma dotstar_then_spec items s :
  dotstar_then items s = true ↔
  ∃ p m tail, s = p +:+ m +:+ tail ∧ newline_free p = true ∧ fits items m ∧
              (tail = "" ∨ tail = String newline "").
Proof.
  split.
  - induction s as [|c r IH]; cbn [dotstar_then].
    + rewrite orb_false_r. unfold here.
      destruct (match_items items "") as [rest|] eqn:Hm; [|done]. intros Hend.
      destruct (match_items_fits _ _ _ Hm) as (m & Hs & Hf).
      exists "", m, rest. by rewrite at_end_iff in Hend.
    + intros [Hhere|[Hc Hr]%andb_true_iff]%orb_true_iff.
      * unfold here in Hhere.
        destruct (match_items items (String c r)) as [rest|] eqn:Hm; [|done].
        destruct (match_items_fits _ _ _ Hm) as (m & Hs & Hf).
        exists "", m, rest. by rewrite at_end_iff in Hhere.
      * destruct (IH Hr) as (p & m & tail & -> & Hp & Hf & Ht).
        exists (String c p), m, tail. repeat split; try done.
        cbn [newline_free]. by rewrite Hc, Hp.
  - intros (p & m & tail & -> & Hp & Hf & Ht).
    induction p as [|c p IH].
    + assert (here items (m +:+ tail) = true) as Hh.
      { unfold here. rewrite (fits_match_items items m tail Hf). by apply at_end_iff. }
      change ("" +:+ m +:+ tail) with (m +:+ tail).
      destruct (m +:+ tail); cbn [dotstar_then]; by rewrite Hh.
    + cbn [newline_free] in Hp. apply andb_true_iff in Hp as [Hc Hp].
      rewrite string_app_cons. cbn [dotstar_then]. rewrite Hc, (IH Hp).
      apply orb_true_r.
Qed.

Lemma pattern_match_dotstar s : pattern_match s = dotstar_then fixed_part s.
Proof. induction s as [|c r IH]; cbn; [done|]. by rewrite IH. Qed.

Lemma fits_fixed_part m :
  fits fixed_part m ↔
  ∃ c1 c2, m = "extent_v4" +:+ String c1 ("0" +:+ String c2 "tif") ∧
           c1 ≠ newline ∧ c2 ≠ newline.
Proof.
  unfold fixed_part. cbn. split.
  - intros Hf.
    repeat (apply fits_cons in Hf as (? & ? & -> & ?%Ascii.eqb_eq & Hf); subst).
    apply fits_cons in Hf as (c1 & ? & -> & Hc1 & Hf).
    apply fits_cons in Hf as (? & ? & -> & ?%Ascii.eqb_eq & Hf); subst.
    apply fits_cons in Hf as (c2 & ? & -> & Hc2 & Hf).
    repeat (apply fits_cons in Hf as (? & ? & -> & ?%Ascii.eqb_eq & Hf); subst).
    apply fits_nil in Hf as ->.
    exists c1, c2. cbn in Hc1, Hc2. split; [done|].
    split; intros ->; by rewrite Ascii.eqb_refl in *.
  - intros (c1 & c2 & -> & Hc1 & Hc2).
    apply Ascii.eqb_neq in Hc1, Hc2.
    repeat (apply fits_cons; eexists _, _; split; [reflexivity|]; split;
            [cbn; by rewrite ?Hc1, ?Hc2|]).
    constructor.
Qed.

Lemma fits_tif_part m :
  fits Process.tif_part m ↔ ∃ c, m = String c "tif" ∧ c ≠ newline.
Proof.
  unfold Process.tif_part. split.
  - intros Hf.
    apply fits_cons in Hf as (c & ? & -> & Hc & Hf).
    repeat (apply fits_cons in Hf as (? & ? & -> & ?%Ascii.eqb_eq & Hf); subst).
    apply fits_nil in Hf as ->.
    exists c. split; [done|]. cbn in Hc. intros ->. by rewrite Ascii.eqb_refl in Hc.
  - intros (c & -> & Hc). apply Ascii.eqb_neq in Hc.
    repeat (apply fits_cons; eexists _, _; split; [reflexivity|]; split;
            [cbn; by rewrite ?Hc|]).
    constructor.
Qed.

Lemma newline_free_app p q :
  newline_free (p +:+ q) = (newline_free p && newline_free q)%bool.
Proof.
  induction p as [|c p IH]; [done|].
  rewrite string_app_cons. cbn [newline_free]. by rewrite IH, andb_assoc.
Qed.

Lemma pattern_match_shape s :
  pattern_match s = true →
  ∃ p c1 c2 tail,
    s = p +:+ "extent_v4" +:+ String c1 ("0" +:+ String c2 ("tif" +:+ tail)) ∧
    newline_free p = true ∧ c1 ≠ newline ∧ c2 ≠ newline ∧
    (tail = "" ∨ tail = String newline "").
Proof.
  rewrite pattern_match_dotstar, dotstar_then_spec.
  intros (p & m & tail & -> & Hp & Hf & Ht).
  apply fits_fixed_part in Hf as (c1 & c2 & -> & Hc1 & Hc2).
  by exists p, c1, c2, tail.
Qed.

Lemma tif_match_of_shape p c tail :
  newline_free p = true → c ≠ newline → tail = "" ∨ tail = String newline "" →
  Process.tif_match (p +:+ String c ("tif" +:+ tail)) = true.
Proof.
  intros Hp Hc Ht. unfold Process.tif_match. apply dotstar_then_spec.
  exists p, (String c "tif"), tail.
  split; [done|]. split; [done|]. split; [|done].
  apply fits_tif_part. by exists c.
Qed.

End RegexFacts.

(** ** The inventory *)

Section ProcessFacts.
Import Process.

Lemma take_digits_spec n : ∀ s d rest,
  take_digits n s = Some (d, rest) ↔
  s = d +:+ rest ∧ String.length d = n ∧ all_digits d = true.
Proof.
  induction n as [|n IH]; intros s d rest.
  - cbn. split.
    + by intros [= <- <-].
    + intros (-> & Hlen & _). by destruct d.
  - destruct s as [|c r]; cbn.
    + split; [done|]. intros (Hs & Hlen & _). by destruct d.
    + destruct (is_digit c) eqn:Hc.
      * destruct (take_digits n r) as [[d' rest']|] eqn:Ht; cbn.
        -- apply IH in Ht as (-> & Hlen & Hd). split.
           ++ intros [= <- <-]. cbn. by rewrite Hc, Hlen, Hd.
           ++ intros (Hs & Hl & Hall). destruct d as [|c' d'']; [done|].
              rewrite string_app_cons in Hs. injection Hs as <- Hs.
              cbn in Hl, Hall. apply andb_true_iff in Hall as [_ Hall].
              assert (take_digits n (d' +:+ rest') = Some (d'', rest)) as Ht'.
              { apply IH. split; [done|]. split; [lia|done]. }
              assert (take_digits n (d' +:+ rest') = Some (d', rest')) as Ht''.
              { apply IH. by rewrite Hlen. }
              congruence.
        -- split; [done|]. intros (Hs & Hl & Hall).
           destruct d as [|c' d'']; [done|].
           rewrite string_app_cons in Hs. injection Hs as <- ->.
           cbn in Hl, Hall. apply andb_true_iff in Hall as [_ Hall].
           assert (take_digits n (d'' +:+ rest) = Some (d'', rest)) as Ht'.
           { apply IH. split; [done|]. split; [lia|done]. }
           congruence.
      * split; [done|]. intros (Hs & Hl & Hall).
        destruct d as [|c' d'']; [done|].
        rewrite string_app_cons in Hs. injection Hs as <- ->.
        cbn in Hall. by rewrite Hc in Hall.
Qed.

Lemma date_here_spec s d :
  date_here s = Some d ↔
  ∃ b, s = "_" +:+ d +:+ "_" +:+ b ∧ String.length d = 8 ∧ all_digits d = true.
Proof.
  unfold date_here. destruct s as [|c r].
  { split; [done|]. by intros (b & Hs & _). }
  destruct (Ascii.eqb_spec c "_"%char) as [->|Hc].
  - destruct (take_digits 8 r) as [[d' rest]|] eqn:Ht.
    + apply take_digits_spec in Ht as (-> & Hlen & Hd). split.
      * destruct rest as [|c' b]; [done|].
        destruct (Ascii.eqb_spec c' "_"%char) as [->|]; [|done].
        intros [= <-]. by exists b.
      * intros (b & Hs & Hl & Hall). injection Hs as Hs.
        assert (take_digits 8 (d' +:+ rest) = Some (d, String "_"%char b)) as Ht'.
        { by apply take_digits_spec. }
        assert (take_digits 8 (d' +:+ rest) = Some (d', rest)) as Ht''.
        { by apply take_digits_spec. }
        rewrite Ht' in Ht''. injection Ht'' as <- <-.
        by rewrite Ascii.eqb_refl.
    + split; [done|]. intros (b & Hs & Hl & Hall). injection Hs as ->.
      assert (take_digits 8 (d +:+ "_" +:+ b) = Some (d, "_" +:+ b)) as Ht'.
      { by apply take_digits_spec. }
      rewrite string_app_nil_l in Ht. congruence.
  - split; [done|]. intros (b & Hs & _). injection Hs as -> _. done.
Qed.

Lemma extract_date_unfold c r :
  extract_date (String c r) =
  match date_here (String c r) with
  | Some d => Some d
  | None => extract_date r
  end.
Proof. reflexivity. Qed.

Lemma extract_date_shape s d :
  extract_date s = Some d →
  ∃ a b, s = a +:+ "_" +:+ d +:+ "_" +:+ b ∧ String.length d = 8 ∧ all_digits d = true.
Proof.
  induction s as [|c r IH]; [done|]. rewrite extract_date_unfold.
  destruct (date_here (String c r)) as [d'|] eqn:Hh.
  - intros [= ->]. apply date_here_spec in Hh as (b & Hs & Hl & Hd).
    by exists "", b.
  - intros (a & b & -> & Hl & Hd)%IH. by exists (String c a), b.
Qed.

Lemma extract_date_found a d b :
  String.length d = 8 → all_digits d = true →
  is_Some (extract_date (a +:+ "_" +:+ d +:+ "_" +:+ b)).
Proof.
  intros Hl Hd. induction a as [|c a IH].
  - assert (date_here ("_" +:+ d +:+ "_" +:+ b) = Some d) as Hh.
    { apply date_here_spec. by exists b. }
    rewrite string_app_nil_l.
    change ("_" +:+ d +:+ "_" +:+ b) with (String "_"%char (d +:+ "_" +:+ b)) in *.
    rewrite extract_date_unfold, Hh. by eexists.
  - rewrite string_app_cons, extract_date_unfold.
    destruct (date_here _); [by eexists|exact IH].
Qed.

Lemma date_here_needs_underscore c r :
  Ascii.eqb c "_"%char = false → date_here (String c r) = None.
Proof. intros Hc. unfold date_here. by rewrite Hc. Qed.

Lemma rows_of_files_member getsize root files rs r :
  rows_of_files getsize root files = Some rs →
  r ∈ rs ↔
  ∃ file size, file ∈ files ∧ tif_match file = true ∧
               getsize (OsPath.join root file) = Some size ∧
               r = Row file (OsPath.join root file) size.
Proof.
  revert rs. induction files as [|f files IH]; intros rs; cbn.
  - intros [= <-]. split; [by intros ?%elem_of_nil|].
    by intros (file & size & ?%elem_of_nil & _).
  - destruct (tif_match f) eqn:Hf.
    + destruct (getsize (OsPath.join root f)) as [n|] eqn:Hn; cbn; [|done].
      destruct (rows_of_files getsize root files) as [rs'|]; cbn; [|done].
      intros [= <-]. rewrite elem_of_cons, (IH rs' eq_refl). split.
      * intros [->|(file & size & Hin & ? & ? & ->)].
        -- exists f, n. split; [by left|done].
        -- exists file, size. split; [by right|done].
      * intros (file & size & [->|Hin]%elem_of_cons & Hm & Hs & ->).
        -- left. congruence.
        -- right. by exists file, size.
    + intros Hrs. rewrite (IH rs Hrs). split.
      * intros (file & size & Hin & ? & ? & ->).
        exists file, size. split; [by right|done].
      * intros (file & size & [->|Hin]%elem_of_cons & Hm & Hs & ->); [congruence|].
        by exists file, size.
Qed.

Lemma rows_of_files_fails getsize root files :
  rows_of_files getsize root files = None ↔
  ∃ file, file ∈ files ∧ tif_match file = true ∧
          getsize (OsPath.join root file) = None.
Proof.
  induction files as [|f files IH]; cbn.
  - split; [done|]. by intros (file & ?%elem_of_nil & _).
  - destruct (tif_match f) eqn:Hf.
    + destruct (getsize (OsPath.join root f)) as [n|] eqn:Hn; cbn.
      * destruct (rows_of_files getsize root files) as [rs'|]; cbn.
        -- split; [done|]. intros (file & [->|Hin]%elem_of_cons & Hm & Hs); [congruence|].
           destruct IH as [_ IH]. assert (Some rs' = None) as Habs; [|done].
           apply IH. by exists file.
        -- split; [|done]. intros _. destruct IH as [IH _].
           destruct (IH eq_refl) as (file & Hin & ? & ?).
           exists file. split; [by right|done].
      * split; [|done]. intros _. exists f. split; [by left|done].
    + rewrite IH. split.
      * intros (file & Hin & ? & ?). exists file. split; [by right|done].
      * intros (file & [->|Hin]%elem_of_cons & Hm & Hs); [congruence|].
        by exists file.
Qed.

End ProcessFacts.

(** ** Where an exception comes from *)

Section Causes.
Context {Fsys : Type} `{FileSystem Fsys}.
Variable urljoin : string → string → string.
Variable remote : string → option response.
Hypothesis os_only : raises_os_errors_only Fsys.

Lemma for_each_raise_source {A} (body : A → M Fsys unit) l (s : Fsys) e :
  result_of (for_each body l s) = Raise e →
  ∃ a s' t0, a ∈ l ∧ result_of (body a s') = Raise e ∧
             trace_of (for_each body l s) = (t0 ++ trace_of (body a s'))%list.
Proof.
  revert s. induction l as [|a l IH]; intros s; [done|].
  rewrite for_each_cons_unfold.
  destruct (body a s) as [[s1 t1] [[]|e'|]] eqn:Ea.
  - unfold result_of at 1, trace_of at 1. cbn [fst snd]. intros Hr.
    destruct (IH s1 Hr) as (b & s' & t0 & Hb & Hres & Ht).
    exists b, s', (t1 ++ t0)%list. split; [by right|]. split; [done|].
    by rewrite Ht, app_assoc.
  - intros [= ->]. exists a, s, []. split; [by left|]. by rewrite Ea.
  - done.
Qed.

Lemma raise_has_a_cause fuel : ∀ root u d (s : Fsys) e,
  linked urljoin remote root u →
  result_of (download_recursive urljoin remote fuel u d s) = Raise e →
  is_os_error e = true ∨
  (e = RequestException ∧
   ∃ u', linked urljoin remote root u' ∧ remote u' = None ∧
         requested u' (trace_of (download_recursive urljoin remote fuel u d s))) ∨
  (e = AttributeError ∧
   ∃ u' r a, linked urljoin remote root u' ∧ remote u' = Some r ∧
             a ∈ drop 1 (links r) ∧ a_href a = None).
Proof.
  induction fuel as [|fuel IH]; intros root u d s e Hu; [done|].
  rewrite download_recursive_unfold. cbn zeta.
  pose proof (proj1 (os_only s e) d) as Hmk.
  destruct (makedirs d s) as [sm [e'|]]; cbn [fst snd] in *.
  { intros [= ->]. left. by apply Hmk. }
  destruct (remote u) as [r|] eqn:Hr.
  2:{ intros [= <-]. right. left. split; [done|]. exists u.
      split; [done|]. split; [done|]. left. apply list_elem_of_further, list_elem_of_here. }
  unfold result_of at 1, trace_of at 1. cbn [fst snd]. intros Hres.
  apply for_each_raise_source in Hres as (a & s' & t0 & Ha & Hres & Ht).
  rewrite Ht. unfold process_link in *.
  destruct (a_href a) as [h|] eqn:Hh.
  2:{ injection Hres as <-. right. right. split; [done|]. by exists u, r, a. }
  destruct (PyStr.endswith_slash h).
  - destruct (IH root (urljoin u h) (child_local_dir d h) s' e
                (linked_href _ _ _ u r a h Hu Hr Ha Hh) Hres)
      as [Hos|[(-> & u' & Hu' & Hnone & Hreq)|Hattr]]; [by left| |by right; right].
    right. left. split; [done|]. exists u'. split; [done|]. split; [done|].
    destruct Hreq as [Hreq|Hreq]; [left|right];
      do 2 apply list_elem_of_further; apply elem_of_app; by right.
  - destruct (Pattern.pattern_match h); [|done].
    rewrite download_file_unfold in Hres |- *. cbn zeta in *.
    destruct (path_exists (file_local_path d h) s'); [done|].
    destruct (remote (urljoin u h)) as [r'|] eqn:Hr'.
    + pose proof (proj2 (os_only s' e) (file_local_path d h) (content r')) as Hw.
      destruct (write_file (file_local_path d h) (content r') s') as [sw [e'|]];
        cbn in *; [|done].
      injection Hres as ->. left. by apply Hw.
    + injection Hres as <-. right. left. split; [done|]. exists (urljoin u h).
      split; [by eapply linked_href|]. split; [done|]. right.
      do 2 apply list_elem_of_further. apply elem_of_app. right.
      apply list_elem_of_further, list_elem_of_here.
Qed.

End Causes.

Section PosixCauses.
Import PosixFs.

Lemma mk_from_os_error (todo : list string) :
  ∀ (pre : list string) (s : fs) e,
    (mk_from pre todo s).2 = Some e → is_os_error e = true.
Proof.
  induction todo as [|c rest IH]; intros pre s e; [done|].
  cbn. destruct (node_at s (pre ++ [c])) as [[|data]|].
  - apply IH.
  - intros [= <-]. by destruct rest.
  - apply IH.
Qed.

Lemma posix_raises_os_errors_only : raises_os_errors_only fs.
Proof.
  intros s e. split.
  - intros d. cbn. unfold PosixFs.posix_makedirs.
    destruct (String.eqb d ""); [by intros [= <-]|].
    destruct (PosixFs.posix_isdir d s); [done|]. apply mk_from_os_error.
  - intros p b. cbn. unfold PosixFs.posix_write.
    destruct (String.eqb p ""); [by intros [= <-]|].
    destruct (PosixFs.node_at s (removelast (PosixFs.resolve p))) as [[|?]|];
      [|by intros [= <-]..].
    destruct (PosixFs.node_at s (PosixFs.resolve p)) as [[|?]|]; [by intros [= <-]|done..].
Qed.

End PosixCauses.

Section MoreResults.
Import Sites PosixFs.

(** X1. The crawl never opens for writing a path at which something exists
    when it starts: what is in the mirror already is never fetched over. *)
Theorem existing_paths_are_never_opened
    {Fsys : Type} `{FileSystem Fsys}
    (urljoin : string → string → string) (remote : string → option response)
    (fuel : nat) (url outdir : string) (s : Fsys) (p : string) :
  FileSystemLaws Fsys →
  p ∈ write_paths (trace_of (download_recursive urljoin remote fuel url outdir s)) →
  path_exists p s = false.
Proof.
  intros laws Hp.
  by apply (download_recursive_careful urljoin remote laws fuel url outdir s).
Qed.

Lemma existing_paths_are_never_opened_witness :
  path_exists "data/2021/N_20210101_extent_v4.0.tif" empty_fs = false.
Proof.
  apply (existing_paths_are_never_opened urljoin_rel site_archive 2 root "data"
           empty_fs _ posix_laws).
  vm_compute. apply list_elem_of_singleton. reflexivity.
Defined.

(** X2. In one crawl no local path is opened for writing twice, also when
    several entries of the remote tree share a local path: the first one
    to come is written, the others find it there. *)
Theorem no_path_is_opened_twice
    {Fsys : Type} `{FileSystem Fsys}
    (urljoin : string → string → string) (remote : string → option response)
    (fuel : nat) (url outdir : string) (s : Fsys) :
  FileSystemLaws Fsys →
  NoDup (write_paths (trace_of (download_recursive urljoin remote fuel url outdir s))).
Proof.
  intros laws.
  by apply (download_recursive_careful urljoin remote laws fuel url outdir s).
Qed.

Lemma no_path_is_opened_twice_witness :
  NoDup (write_paths (trace_of (crawl site_abc 1 empty_fs))).
Proof.
  exact (no_path_is_opened_twice urljoin_rel site_abc 1 root "data" empty_fs posix_laws).
Defined.

(** X3. When the crawl returns without raising, every path it opened for
    writing exists in the file system it leaves. *)
Theorem opened_paths_exist_after_return
    {Fsys : Type} `{FileSystem Fsys}
    (urljoin : string → string → string) (remote : string → option response)
    (fuel : nat) (url outdir : string) (s : Fsys) (p : string) :
  FileSystemLaws Fsys →
  result_of (download_recursive urljoin remote fuel url outdir s) = Ret tt →
  p ∈ write_paths (trace_of (download_recursive urljoin remote fuel url outdir s)) →
  path_exists p (final_fs (download_recursive urljoin remote fuel url outdir s)) = true.
Proof.
  intros laws Hret Hp.
  by apply (download_recursive_careful urljoin remote laws fuel url outdir s).
Qed.

Lemma opened_paths_exist_after_return_witness :
  path_exists "data/2021/N_20210101_extent_v4.0.tif"
    (final_fs (crawl site_archive 2 empty_fs)) = true.
Proof.
  apply (opened_paths_exist_after_return urljoin_rel site_archive 2 root "data"
           empty_fs _ posix_laws).
  - by vm_compute.
  - vm_compute. apply list_elem_of_singleton. reflexivity.
Defined.

(** X4. What is written is what was served: every write of the crawl is at
    the local path of some entry, reached from the output root through the
    hrefs of directories and the href of a matching file, and its bytes are
    the body of the response delivered at the URL reached from the root URL
    through the same hrefs, which the crawl fetched. *)
Theorem written_bytes_are_the_body_served
    {Fsys : Type} `{FileSystem Fsys}
    (urljoin : string → string → string) (remote : string → option response)
    (fuel : nat) (url outdir : string) (s : Fsys) (p : string) (b : list byte) :
  EvWrite p b ∈ trace_of (download_recursive urljoin remote fuel url outdir s) →
  ∃ ds f r,
    Forall (λ d, PyStr.endswith_slash d = true) ds ∧
    PyStr.endswith_slash f = false ∧ Pattern.pattern_match f = true ∧
    p = local_file_of outdir ds f ∧
    remote (remote_file_of urljoin url ds f) = Some r ∧
    b = content r ∧
    EvFetch (remote_file_of urljoin url ds f)
      ∈ trace_of (download_recursive urljoin remote fuel url outdir s).
Proof.
  revert p b.
  apply (crawl_trace_ind urljoin remote
    (λ u d t, ∀ p b, EvWrite p b ∈ t →
       ∃ ds f r,
         Forall (λ d, PyStr.endswith_slash d = true) ds ∧
         PyStr.endswith_slash f = false ∧ Pattern.pattern_match f = true ∧
         p = local_file_of d ds f ∧
         remote (remote_file_of urljoin u ds f) = Some r ∧
         b = content r ∧
         EvFetch (remote_file_of urljoin u ds f) ∈ t)).
  - by intros u d p b ?%elem_of_nil.
  - intros u d t1 t2 H1 H2 p b [Hp|Hp]%elem_of_app.
    + destruct (H1 p b Hp) as (ds & f & r & ? & ? & ? & ? & ? & ? & Hin).
      exists ds, f, r. repeat split; try done. apply elem_of_app. by left.
    + destruct (H2 p b Hp) as (ds & f & r & ? & ? & ? & ? & ? & ? & Hin).
      exists ds, f, r. repeat split; try done. apply elem_of_app. by right.
  - by intros u d p b ?%list_elem_of_singleton.
  - by intros u d p b ?%list_elem_of_singleton.
  - intros u d r a h s0 _ _ _ He Hm p b Hp.
    destruct (download_file_trace_cases remote (urljoin u h) d h s0)
      as [Ht|[[_ Ht]|(r' & Hr' & Ht)]]; rewrite Ht in Hp |- *.
    + by apply elem_of_nil in Hp.
    + repeat (apply elem_of_cons in Hp as [Hp|Hp]; [done|]). by apply elem_of_nil in Hp.
    + repeat (apply elem_of_cons in Hp as [Hp|Hp]; [try done|]).
      * injection Hp as -> ->. exists [], h, r'. repeat split; try done.
        apply elem_of_cons. right. by left.
      * by apply elem_of_nil in Hp.
  - intros u d r a h t _ _ _ He IH p b Hp.
    destruct (IH p b Hp) as (ds & f & r' & ? & ? & ? & ? & ? & ? & Hin).
    exists (h :: ds), f, r'. repeat split; try done. by constructor.
Qed.

Lemma written_bytes_are_the_body_served_witness :
  ∃ ds f r,
    Forall (λ d, PyStr.endswith_slash d = true) ds ∧
    PyStr.endswith_slash f = false ∧ Pattern.pattern_match f = true ∧
    "data/2021/N_20210101_extent_v4.0.tif" = local_file_of "data" ds f ∧
    site_archive (remote_file_of urljoin_rel root ds f) = Some r ∧
    tif_bytes = content r ∧
    EvFetch (remote_file_of urljoin_rel root ds f)
      ∈ trace_of (crawl site_archive 2 empty_fs).
Proof.
  apply (written_bytes_are_the_body_served urljoin_rel site_archive 2 root "data"
           empty_fs).
  vm_compute. do 6 apply list_elem_of_further. apply list_elem_of_here.
Defined.

(** X5. Every directory the crawl makes has the output root as a prefix of
    its path: [href.strip("/")] leaves no leading separator, so
    [os.path.join] never lets a directory href replace the local
    directory. (A [..] inside a href is not looked at.) *)
Theorem directories_are_made_under_the_output_root
    {Fsys : Type} `{FileSystem Fsys}
    (urljoin : string → string → string) (remote : string → option response)
    (fuel : nat) (url outdir : string) (s : Fsys) (d : string) :
  EvMakedirs d ∈ trace_of (download_recursive urljoin remote fuel url outdir s) →
  ∃ rest, d = outdir +:+ rest.
Proof.
  revert d.
  apply (crawl_trace_ind urljoin remote
    (λ u o t, ∀ d, EvMakedirs d ∈ t → ∃ rest, d = o +:+ rest)).
  - by intros u o d ?%elem_of_nil.
  - intros u o t1 t2 H1 H2 d [Hd|Hd]%elem_of_app; [by apply H1|by apply H2].
  - intros u o d [= ->]%list_elem_of_singleton. exists "". by rewrite string_app_nil_r.
  - by intros u o d ?%list_elem_of_singleton.
  - intros u o r a h s0 _ _ _ _ _ d Hd.
    destruct (download_file_trace_cases remote (urljoin u h) o h s0)
      as [Ht|[[_ Ht]|(r' & _ & Ht)]]; rewrite Ht in Hd.
    + by apply elem_of_nil in Hd.
    + repeat (apply elem_of_cons in Hd as [Hd|Hd]; [done|]). by apply elem_of_nil in Hd.
    + repeat (apply elem_of_cons in Hd as [Hd|Hd]; [done|]). by apply elem_of_nil in Hd.
  - intros u o r a h t _ _ _ _ IH d Hd.
    destruct (IH d Hd) as [rest ->].
    destruct (child_local_dir_extends o h) as [x ->].
    exists (x +:+ rest). by rewrite string_app_assoc.
Qed.

Lemma directories_are_made_under_the_output_root_witness :
  ∃ rest, "data/2021" = "data" +:+ rest.
Proof.
  apply (directories_are_made_under_the_output_root urljoin_rel site_archive 2
           root "data" empty_fs).
  vm_compute. do 2 apply list_elem_of_further. apply list_elem_of_here.
Defined.

(** X6. A file is written below the output root, unless the href of its
    entry starts with a separator: [os.path.join] then drops the local
    directory, and the file is written at the href itself, an absolute
    path. *)
Theorem files_are_written_under_the_output_root_or_at_an_absolute_href
    {Fsys : Type} `{FileSystem Fsys}
    (urljoin : string → string → string) (remote : string → option response)
    (fuel : nat) (url outdir : string) (s : Fsys) (p : string) (b : list byte) :
  EvWrite p b ∈ trace_of (download_recursive urljoin remote fuel url outdir s) →
  (∃ rest, p = outdir +:+ rest) ∨
  (PyStr.startswith_slash p = true ∧ Pattern.pattern_match p = true).
Proof.
  revert p b.
  apply (crawl_trace_ind urljoin remote
    (λ u o t, ∀ p b, EvWrite p b ∈ t →
       (∃ rest, p = o +:+ rest) ∨
       (PyStr.startswith_slash p = true ∧ Pattern.pattern_match p = true))).
  - by intros u o p b ?%elem_of_nil.
  - intros u o t1 t2 H1 H2 p b [Hp|Hp]%elem_of_app; [by eapply H1|by eapply H2].
  - by intros u o p b ?%list_elem_of_singleton.
  - by intros u o p b ?%list_elem_of_singleton.
  - intros u o r a h s0 _ _ _ _ Hm p b Hp.
    destruct (download_file_trace_cases remote (urljoin u h) o h s0)
      as [Ht|[[_ Ht]|(r' & _ & Ht)]]; rewrite Ht in Hp.
    + by apply elem_of_nil in Hp.
    + repeat (apply elem_of_cons in Hp as [Hp|Hp]; [done|]). by apply elem_of_nil in Hp.
    + repeat (apply elem_of_cons in Hp as [Hp|Hp]; [try done|]);
        [|by apply elem_of_nil in Hp].
      injection Hp as -> _.
      destruct (PyStr.startswith_slash h) eqn:Hs.
      * right. by rewrite file_local_path_absolute.
      * left. by apply file_local_path_extends.
  - intros u o r a h t _ _ _ _ IH p b Hp.
    destruct (IH p b Hp) as [[rest ->]|Habs]; [left|by right].
    destruct (child_local_dir_extends o h) as [x ->].
    exists (x +:+ rest). by rewrite string_app_assoc.
Qed.

Lemma files_are_written_under_the_output_root_or_at_an_absolute_href_witness :
  (∃ rest, "data/2021/N_20210101_extent_v4.0.tif" = "data" +:+ rest) ∨
  (PyStr.startswith_slash "data/2021/N_20210101_extent_v4.0.tif" = true ∧
   Pattern.pattern_match "data/2021/N_20210101_extent_v4.0.tif" = true).
Proof.
  apply (files_are_written_under_the_output_root_or_at_an_absolute_href
           urljoin_rel site_archive 2 root "data" empty_fs _ tif_bytes).
  vm_compute. do 6 apply list_elem_of_further. apply list_elem_of_here.
Defined.

(** X7. The crawl requests no URL but those the listings lead to: every
    GET, of a listing or of a file, is for the root URL or for the resolved
    href of an anchor, not the first, of a listing delivered at a URL
    reached in the same way. *)
Theorem requests_follow_the_links
    {Fsys : Type} `{FileSystem Fsys}
    (urljoin : string → string → string) (remote : string → option response)
    (fuel : nat) (url outdir : string) (s : Fsys) (u : string) :
  requested u (trace_of (download_recursive urljoin remote fuel url outdir s)) →
  linked urljoin remote url u.
Proof.
  intros Hreq.
  enough (∀ root, linked urljoin remote root url →
            ∀ u', requested u' (trace_of (download_recursive urljoin remote fuel
                                            url outdir s)) →
                  linked urljoin remote root u') as Hgen
    by exact (Hgen url (linked_root _ _ _) u Hreq).
  clear u Hreq.
  apply (crawl_trace_ind urljoin remote
    (λ v o t, ∀ root, linked urljoin remote root v →
              ∀ u', requested u' t → linked urljoin remote root u')).
  - intros v o root _ u' [?%elem_of_nil|?%elem_of_nil]; done.
  - intros v o t1 t2 H1 H2 root Hv u' [[Hu|Hu]%elem_of_app|[Hu|Hu]%elem_of_app].
    + apply (H1 root Hv). by left.
    + apply (H2 root Hv). by left.
    + apply (H1 root Hv). by right.
    + apply (H2 root Hv). by right.
  - intros v o root _ u' [?%list_elem_of_singleton|?%list_elem_of_singleton]; done.
  - intros v o root Hv u' [[= ->]%list_elem_of_singleton|?%list_elem_of_singleton]; done.
  - intros v o r a h s0 Hr Ha Hh _ _ root Hv u' Hu.
    assert (u' = urljoin v h) as ->; [|by eapply linked_href].
    destruct (download_file_trace_cases remote (urljoin v h) o h s0)
      as [Ht|[[_ Ht]|(r' & _ & Ht)]]; rewrite Ht in Hu; destruct Hu as [Hu|Hu];
      repeat (apply elem_of_cons in Hu as [Hu|Hu]; [by try injection Hu|]);
      by apply elem_of_nil in Hu.
  - intros v o r a h t Hr Ha Hh _ IH root Hv u' Hu.
    apply (IH root); [|done]. by eapply linked_href.
Qed.

Lemma requests_follow_the_links_witness :
  linked urljoin_rel site_archive root "http://h/r/2021/N_20210101_extent_v4.0.tif".
Proof.
  apply (requests_follow_the_links urljoin_rel site_archive 2 root "data" empty_fs).
  right. vm_compute. do 5 apply list_elem_of_further. apply list_elem_of_here.
Defined.

(** X8. On the POSIX-like file system the crawl only adds: every directory
    and every file that is there when it starts is there when it ends,
    raised or not, and every file has the bytes it had. *)
Theorem crawl_leaves_what_exists_untouched
    (urljoin : string → string → string) (remote : string → option response)
    (fuel : nat) (url outdir : string) (s : fs) :
  let s' := final_fs (download_recursive urljoin remote fuel url outdir s) in
  posix_grows s s' ∧
  (∀ q data, read_file q s = Some data → read_file q s' = Some data) ∧
  (∀ q, posix_isdir q s = true → posix_isdir q s' = true).
Proof.
  cbn zeta.
  destruct (posix_crawl_keeps_and_lands urljoin remote fuel url outdir s) as [Hg _].
  split; [done|]. split.
  - intros q data. by apply read_file_grows.
  - intros q. unfold posix_isdir. destruct (negb (String.eqb q "")); [|done]. cbn.
    destruct (node_at s (resolve q)) as [[|?]|] eqn:E; [|done..].
    by rewrite (Hg _ _ E).
Qed.

(** X9. On the POSIX-like file system, when the crawl returns without
    raising, every path it wrote holds at the end the bytes written there:
    nothing the crawl does later touches a file it has written. *)
Theorem written_files_hold_their_bytes
    (urljoin : string → string → string) (remote : string → option response)
    (fuel : nat) (url outdir : string) (s : fs) (p : string) (b : list byte) :
  result_of (download_recursive urljoin remote fuel url outdir s) = Ret tt →
  EvWrite p b ∈ trace_of (download_recursive urljoin remote fuel url outdir s) →
  read_file p (final_fs (download_recursive urljoin remote fuel url outdir s)) = Some b.
Proof.
  intros Hret Hp.
  by apply (posix_crawl_keeps_and_lands urljoin remote fuel url outdir s).
Qed.

Lemma written_files_hold_their_bytes_witness :
  read_file "data/2021/N_20210101_extent_v4.0.tif"
    (final_fs (crawl site_archive 2 empty_fs)) = Some tif_bytes.
Proof.
  apply (written_files_hold_their_bytes urljoin_rel site_archive 2 root "data" empty_fs).
  - by vm_compute.
  - vm_compute. do 6 apply list_elem_of_further. apply list_elem_of_here.
Defined.

(** X10. A listing with no anchor, or with one anchor only, is an empty
    directory to the crawl, whatever the status and the body of the
    response: the local directory is made, nothing else is requested and
    nothing is raised. *)
Theorem listing_of_at_most_one_anchor_is_empty
    {Fsys : Type} `{FileSystem Fsys}
    (urljoin : string → string → string) (remote : string → option response)
    (fuel : nat) (url outdir : string) (s s0 : Fsys) (r : response) :
  makedirs outdir s = (s0, None) →
  remote url = Some r →
  (length (links r) ≤ 1)%nat →
  download_recursive urljoin remote (S fuel) url outdir s =
    (s0, [EvMakedirs outdir; EvList url], Ret tt).
Proof.
  intros Hmk Hr Hlen. rewrite download_recursive_unfold, Hmk. cbn. rewrite Hr.
  destruct (links r) as [|a [|a' l]]; [done..|]. cbn in Hlen. lia.
Qed.

Lemma listing_of_at_most_one_anchor_is_empty_witness :
  download_recursive urljoin_rel site_archive 1 "http://h/r/empty/" "data/empty"
    empty_fs =
  ((posix_makedirs "data/empty" empty_fs).1,
   [EvMakedirs "data/empty"; EvList "http://h/r/empty/"], Ret tt).
Proof.
  apply (listing_of_at_most_one_anchor_is_empty urljoin_rel site_archive 0
           "http://h/r/empty/" "data/empty" empty_fs _ (listing [parent_link]));
    [reflexivity|reflexivity|cbn; lia].
Defined.

(** X11. What the scraper's pattern accepts: a string made of any
    characters but newlines, then [extent_v4], one character, [0], one
    character, [tif] (the two dots of the pattern stand for any character
    but a newline, not for a dot only), and then the end, before which one
    newline may stand. *)
Theorem scrape_pattern_meaning (s : string) :
  Pattern.pattern_match s = true ↔
  ∃ p c1 c2 tail,
    s = p +:+ "extent_v4" +:+ String c1 ("0" +:+ String c2 ("tif" +:+ tail)) ∧
    Regex.newline_free p = true ∧ c1 ≠ PyStr.newline ∧ c2 ≠ PyStr.newline ∧
    (tail = "" ∨ tail = String PyStr.newline "").
Proof.
  rewrite pattern_match_dotstar, dotstar_then_spec. split.
  - intros (p & m & tail & -> & Hp & Hf & Ht).
    apply fits_fixed_part in Hf as (c1 & c2 & -> & Hc1 & Hc2).
    by exists p, c1, c2, tail.
  - intros (p & c1 & c2 & tail & -> & Hp & Hc1 & Hc2 & Ht).
    exists p, ("extent_v4" +:+ String c1 ("0" +:+ String c2 "tif")), tail.
    split; [done|]. split; [done|]. split; [|done].
    apply fits_fixed_part. by exists c1, c2.
Qed.

(** X12. A href that the pattern accepts does not end with a separator: an
    entry is never both a directory to recurse into and a file to
    download, and the order of the two tests in the loop is immaterial. *)
Theorem matched_href_is_no_directory (h : string) :
  Pattern.pattern_match h = true → PyStr.endswith_slash h = false.
Proof.
  intros (p & c1 & c2 & tail & -> & _ & _ & _ & Ht)%pattern_match_shape.
  rewrite endswith_app by done.
  destruct Ht as [-> | ->]; reflexivity.
Qed.

Lemma matched_href_is_no_directory_witness :
  PyStr.endswith_slash "N_20210101_extent_v4.0.tif" = false.
Proof. apply matched_href_is_no_directory. reflexivity. Defined.

(** X13. What the inventory's pattern [.*.tif$] accepts: any characters but
    newlines, then one more character of any kind but a newline, then
    [tif], and the end or one newline. So the name needs no dot before
    [tif], and needs one character at least before it. *)
Theorem inventory_pattern_meaning (s : string) :
  Process.tif_match s = true ↔
  ∃ p c tail,
    s = p +:+ String c ("tif" +:+ tail) ∧
    Regex.newline_free p = true ∧ c ≠ PyStr.newline ∧
    (tail = "" ∨ tail = String PyStr.newline "").
Proof.
  unfold Process.tif_match. rewrite dotstar_then_spec. split.
  - intros (p & m & tail & -> & Hp & Hf & Ht).
    apply fits_tif_part in Hf as (c & -> & Hc). by exists p, c, tail.
  - intros (p & c & tail & -> & Hp & Hc & Ht).
    exists p, (String c "tif"), tail.
    split; [done|]. split; [done|]. split; [|done].
    apply fits_tif_part. by exists c.
Qed.

(** X14. The two scripts agree on names: every string the scraper's pattern
    accepts is accepted by the pattern of the inventory. *)
Theorem scraped_names_pass_the_inventory_filter (s : string) :
  Pattern.pattern_match s = true → Process.tif_match s = true.
Proof.
  intros (p & c1 & c2 & tail & -> & Hp & Hc1 & Hc2 & Ht)%pattern_match_shape.
  replace (p +:+ "extent_v4" +:+ String c1 ("0" +:+ String c2 ("tif" +:+ tail)))
    with ((p +:+ "extent_v4" +:+ String c1 "0") +:+ String c2 ("tif" +:+ tail))
    by by rewrite !string_app_assoc.
  apply tif_match_of_shape; [|done..].
  rewrite !newline_free_app, Hp. cbn.
  apply Ascii.eqb_neq in Hc1. by rewrite Hc1.
Qed.

Lemma scraped_names_pass_the_inventory_filter_witness :
  Process.tif_match "N_20210101_extent_v4.0.tif" = true.
Proof. apply scraped_names_pass_the_inventory_filter. reflexivity. Defined.

(** X15. What the date column holds for a file name made of ASCII
    characters, where [\d] is one of [0] to [9]: when a value is extracted,
    it is a run of exactly eight digits that stands in the name between
    two underscores; and the value is missing exactly when the name has no
    such run anywhere. *)
Theorem extracted_date_meaning (s : string) :
  Process.ascii_only s = true →
  (∀ d, Process.extract_date s = Some d →
        ∃ a b, s = a +:+ "_" +:+ d +:+ "_" +:+ b ∧
               String.length d = 8 ∧ Process.all_digits d = true) ∧
  (Process.extract_date s = None ↔
   ¬ ∃ a d b, s = a +:+ "_" +:+ d +:+ "_" +:+ b ∧
              String.length d = 8 ∧ Process.all_digits d = true).
Proof.
  intros _. split; [intros d; apply extract_date_shape|]. split.
  - intros Hnone (a & d & b & -> & Hl & Hd).
    destruct (extract_date_found a d b Hl Hd) as [d' Hd']. congruence.
  - intros Hno. destruct (Process.extract_date s) as [d|] eqn:He; [|done].
    exfalso. apply Hno.
    destruct (extract_date_shape s d He) as (a & b & ? & ? & ?). by exists a, d, b.
Qed.

Lemma extracted_date_meaning_witness :
  Process.extract_date "readme_2021.tif" = None ↔
  ¬ ∃ a d b, "readme_2021.tif" = a +:+ "_" +:+ d +:+ "_" +:+ b ∧
             String.length d = 8 ∧ Process.all_digits d = true.
Proof.
  exact (proj2 (extracted_date_meaning "readme_2021.tif" eq_refl)).
Defined.

(** X16. When the first underscore of a file name is followed by eight
    digits and an underscore, as in the names of the archive, the date
    extracted is these eight digits. *)
Theorem date_after_first_underscore (a d b : string) :
  Process.underscore_free a = true →
  String.length d = 8 → Process.all_digits d = true →
  Process.extract_date (a +:+ "_" +:+ d +:+ "_" +:+ b) = Some d.
Proof.
  intros Ha Hl Hd. induction a as [|c a IH].
  - assert (Process.date_here ("_" +:+ d +:+ "_" +:+ b) = Some d) as Hh.
    { apply date_here_spec. by exists b. }
    rewrite string_app_nil_l.
    change ("_" +:+ d +:+ "_" +:+ b) with (String "_"%char (d +:+ "_" +:+ b)) in *.
    by rewrite extract_date_unfold, Hh.
  - cbn in Ha. apply andb_true_iff in Ha as [Hc Ha].
    rewrite string_app_cons, extract_date_unfold.
    rewrite date_here_needs_underscore by by apply negb_true_iff.
    by apply IH.
Qed.

Lemma date_after_first_underscore_witness :
  Process.extract_date "N_20210101_extent_v4.0.tif" = Some "20210101".
Proof.
  exact (date_after_first_underscore "N" "20210101" "extent_v4.0.tif"
           eq_refl eq_refl eq_refl).
Defined.

(** X17. When the inventory is built, its rows are exactly these: one for
    each file name, among those [os.walk] yields, that the pattern
    [.*.tif$] accepts, with the path joined from the directory of the walk
    and the name, and the size read at that path. *)
Theorem inventory_rows
    (getsize : string → option nat)
    (walk : list (string * list string * list string))
    (rows : list Process.row) (f p : string) (n : nat) :
  Process.build_rows getsize walk = Some rows →
  Process.Row f p n ∈ rows ↔
  ∃ root dirs files,
    (root, dirs, files) ∈ walk ∧ f ∈ files ∧ Process.tif_match f = true ∧
    p = OsPath.join root f ∧ getsize p = Some n.
Proof.
  revert rows. induction walk as [|[[root dirs] files] walk IH]; intros rows; cbn.
  - intros [= <-]. split; [by intros ?%elem_of_nil|].
    by intros (? & ? & ? & ?%elem_of_nil & _).
  - destruct (Process.rows_of_files getsize root files) as [rs|] eqn:Hrs; cbn; [|done].
    destruct (Process.build_rows getsize walk) as [rest|]; cbn; [|done].
    intros [= <-]. rewrite elem_of_app, (IH rest eq_refl).
    rewrite (rows_of_files_member getsize root files rs _ Hrs). split.
    + intros [(file & size & Hin & Hm & Hs & [= -> -> ->])|
              (root' & dirs' & files' & Hw & ?)].
      * exists root, dirs, files. split; [by left|done].
      * exists root', dirs', files'. split; [by right|done].
    + intros (root' & dirs' & files' & [[= -> -> ->]|Hw]%elem_of_cons & Hf & Hm & -> & Hs).
      * left. by exists f, n.
      * right. by exists root', dirs', files'.
Qed.

Lemma inventory_rows_witness :
  Process.Row "N_20210101_extent_v4.0.tif" "data/2021/N_20210101_extent_v4.0.tif" 4
    ∈ [Process.Row "N_20210101_extent_v4.0.tif"
         "data/2021/N_20210101_extent_v4.0.tif" 4].
Proof.
  apply (inventory_rows (λ _, Some 4)
           [("data", ["2021"; "empty"], []);
            ("data/2021", [], ["N_20210101_extent_v4.0.tif"; "notes.txt"]);
            ("data/empty", [], [])]).
  - reflexivity.
  - exists "data/2021", [], ["N_20210101_extent_v4.0.tif"; "notes.txt"].
    split; [apply list_elem_of_further, list_elem_of_here|].
    split; [apply list_elem_of_here|done].
Defined.

(** X18. Building the inventory raises exactly when [os.path.getsize]
    raises for a file that the pattern accepts; a file the pattern
    rejects is never measured. *)
Theorem inventory_fails_on_unreadable_size
    (getsize : string → option nat)
    (walk : list (string * list string * list string)) :
  Process.build_rows getsize walk = None ↔
  ∃ root dirs files f,
    (root, dirs, files) ∈ walk ∧ f ∈ files ∧ Process.tif_match f = true ∧
    getsize (OsPath.join root f) = None.
Proof.
  induction walk as [|[[root dirs] files] walk IH]; cbn.
  - split; [done|]. by intros (? & ? & ? & ? & ?%elem_of_nil & _).
  - destruct (Process.rows_of_files getsize root files) as [rs|] eqn:Hrs; cbn.
    + destruct (Process.build_rows getsize walk) as [rest|]; cbn.
      * split; [done|].
        intros (root' & dirs' & files' & f & [[= -> -> ->]|Hw]%elem_of_cons & Hf & Hm & Hs).
        -- assert (Process.rows_of_files getsize root files = None) as Habs; [|congruence].
           apply rows_of_files_fails. by exists f.
        -- assert (Some rest = None) as Habs; [|done].
           apply IH. by exists root', dirs', files', f.
      * split; [|done]. intros _. destruct IH as [IH _].
        destruct (IH eq_refl) as (root' & dirs' & files' & f & Hw & ?).
        exists root', dirs', files', f. split; [by right|done].
    + split; [|done]. intros _.
      apply rows_of_files_fails in Hrs as (f & Hf & Hm & Hs).
      exists root, dirs, files, f. split; [by left|done].
Qed.

(** X19. [AttributeError] has one cause only. When the file system raises
    nothing but exceptions of the operating system and the crawl ends with
    [AttributeError], some listing that was delivered at a URL the links
    lead to holds, after its first anchor, an anchor without [href]. *)
Theorem attribute_error_comes_from_an_anchor_without_href
    {Fsys : Type} `{FileSystem Fsys}
    (urljoin : string → string → string) (remote : string → option response)
    (fuel : nat) (url outdir : string) (s : Fsys) :
  raises_os_errors_only Fsys →
  result_of (download_recursive urljoin remote fuel url outdir s) = Raise AttributeError →
  ∃ u r a, linked urljoin remote url u ∧ remote u = Some r ∧
           a ∈ drop 1 (links r) ∧ a_href a = None.
Proof.
  intros Hos Hres.
  destruct (raise_has_a_cause urljoin remote Hos fuel url url outdir s AttributeError
              (linked_root _ _ _) Hres) as [Hno|[[Hno _]|[_ Hcause]]]; done.
Qed.

Lemma attribute_error_comes_from_an_anchor_without_href_witness :
  ∃ u r a, linked urljoin_rel site_no_href root u ∧ site_no_href u = Some r ∧
           a ∈ drop 1 (links r) ∧ a_href a = None.
Proof.
  apply (attribute_error_comes_from_an_anchor_without_href urljoin_rel site_no_href
           3 root "data" empty_fs posix_raises_os_errors_only).
  by vm_compute.
Defined.

(** X20. [RequestException] has one cause only. When the file system
    raises nothing but exceptions of the operating system and the crawl
    ends with the exception of [requests], the crawl has requested a URL,
    one the links lead to, for which no response was obtained. *)
Theorem request_exception_comes_from_a_failed_get
    {Fsys : Type} `{FileSystem Fsys}
    (urljoin : string → string → string) (remote : string → option response)
    (fuel : nat) (url outdir : string) (s : Fsys) :
  raises_os_errors_only Fsys →
  result_of (download_recursive urljoin remote fuel url outdir s) = Raise RequestException →
  ∃ u, linked urljoin remote url u ∧ remote u = None ∧
       requested u (trace_of (download_recursive urljoin remote fuel url outdir s)).
Proof.
  intros Hos Hres.
  destruct (raise_has_a_cause urljoin remote Hos fuel url url outdir s RequestException
              (linked_root _ _ _) Hres) as [Hno|[[_ Hcause]|[Hno _]]]; done.
Qed.

Lemma request_exception_comes_from_a_failed_get_witness :
  ∃ u, linked urljoin_rel site_years root u ∧ site_years u = None ∧
       requested u (trace_of (crawl site_years 3 empty_fs)).
Proof.
  apply (request_exception_comes_from_a_failed_get urljoin_rel site_years
           3 root "data" empty_fs posix_raises_os_errors_only).
  by vm_compute.
Defined.

(** A file entry with an absolute path for a href: the file is written at
    that path, outside the output root. *)
Example absolute_href_leaves_the_output_root :
  trace_of (download_recursive urljoin_host site_absolute_href 1 root "data" fs_with_tmp) =
    [EvMakedirs "data"; EvList "http://h/r/";
     EvPrint "http://h/tmp/N_extent_v4.0.tif"; EvFetch "http://h/tmp/N_extent_v4.0.tif";
     EvWrite "/tmp/N_extent_v4.0.tif" tif_bytes] ∧
  read_file "/tmp/N_extent_v4.0.tif"
    (final_fs (download_recursive urljoin_host site_absolute_href 1 root "data"
                 fs_with_tmp)) = Some tif_bytes.
Proof. split; by vm_compute. Qed.

End MoreResults.

(** * The mapping from remote entries to local paths *)

Section EntryFacts.
Context {Fsys : Type} `{FileSystem Fsys}.
Variable urljoin : string → string → string.
Variable remote : string → option response.

(** Every write of the crawl is the write of a file entry of the remote
    tree: at the local path of its hrefs, with the body served at the URL
    of its hrefs. *)
Lemma writes_are_entries fuel url outdir (s : Fsys) p b :
  EvWrite p b ∈ trace_of (download_recursive urljoin remote fuel url outdir s) →
  ∃ ds f r,
    file_entry urljoin remote url ds f ∧
    p = local_file_of outdir ds f ∧
    remote (remote_file_of urljoin url ds f) = Some r ∧
    b = content r ∧
    EvFetch (remote_file_of urljoin url ds f)
      ∈ trace_of (download_recursive urljoin remote fuel url outdir s).
Proof.
  revert p b.
  apply (crawl_trace_ind urljoin remote
    (λ u d t, ∀ p b, EvWrite p b ∈ t →
       ∃ ds f r,
         file_entry urljoin remote u ds f ∧
         p = local_file_of d ds f ∧
         remote (remote_file_of urljoin u ds f) = Some r ∧
         b = content r ∧
         EvFetch (remote_file_of urljoin u ds f) ∈ t)).
  - by intros u d p b ?%elem_of_nil.
  - intros u d t1 t2 H1 H2 p b [Hp|Hp]%elem_of_app.
    + destruct (H1 p b Hp) as (ds & f & r & ? & ? & ? & ? & Hin).
      exists ds, f, r. repeat split; try done. apply elem_of_app. by left.
    + destruct (H2 p b Hp) as (ds & f & r & ? & ? & ? & ? & Hin).
      exists ds, f, r. repeat split; try done. apply elem_of_app. by right.
  - by intros u d p b ?%list_elem_of_singleton.
  - by intros u d p b ?%list_elem_of_singleton.
  - intros u d r a h s0 Hr Ha Hh He Hm p b Hp.
    destruct (download_file_trace_cases remote (urljoin u h) d h s0)
      as [Ht|[[_ Ht]|(r' & Hr' & Ht)]]; rewrite Ht in Hp |- *.
    + by apply elem_of_nil in Hp.
    + repeat (apply elem_of_cons in Hp as [Hp|Hp]; [done|]). by apply elem_of_nil in Hp.
    + repeat (apply elem_of_cons in Hp as [Hp|Hp]; [try done|]).
      * injection Hp as -> ->. exists [], h, r'.
        split; [by eapply entry_here|]. repeat split; try done.
        apply elem_of_cons. right. by left.
      * by apply elem_of_nil in Hp.
  - intros u d r a h t Hr Ha Hh He IH p b Hp.
    destruct (IH p b Hp) as (ds & f & r' & ? & ? & ? & ? & Hin).
    exists (h :: ds), f, r'. split; [by eapply entry_below|done].
Qed.

(** On a plain site the hrefs of an entry are plain names, those of the
    directories followed by one separator. *)
Lemma file_entry_plain url ds f :
  plain_site remote → file_entry urljoin remote url ds f →
  ∃ ns, ds = dir_href <$> ns ∧
        Forall (λ n, plain_name n = true) ns ∧ plain_name f = true.
Proof.
  intros Hsite. induction 1 as [url r a f Hr Ha Hf He Hm|url r a h ds f Hr Ha Hh He _ IH].
  - exists []. split; [done|]. split; [constructor|].
    destruct (Hsite url r a f Hr Ha Hf) as [Hp|(n & -> & _)]; [done|].
    by rewrite endswith_dir_href in He.
  - destruct IH as (ns & -> & Hns & Hpf).
    destruct (Hsite url r a h Hr Ha Hh) as [Hp|(n & -> & Hn)].
    + apply plain_name_no_slash, no_slash_end in Hp. congruence.
    + exists (n :: ns). split; [done|]. split; [by constructor|done].
Qed.

Lemma for_each_visits {A} (body : A → M Fsys unit) l a (s : Fsys) :
  (∀ b s', fs_le s' (final_fs (body b s'))) →
  result_of (for_each body l s) = Ret tt → a ∈ l →
  ∃ s', result_of (body a s') = Ret tt ∧
        fs_le (final_fs (body a s')) (final_fs (for_each body l s)).
Proof.
  intros Hle. revert s. induction l as [|b l IH]; intros s Hret Ha.
  - by apply elem_of_nil in Ha.
  - rewrite for_each_cons_unfold in Hret |- *.
    destruct (body b s) as [[s1 t1] [[]|e|]] eqn:Eb; [|done..].
    unfold result_of at 1 in Hret. cbn [fst snd] in Hret.
    unfold final_fs at 2. cbn [fst snd].
    apply elem_of_cons in Ha as [->|Ha].
    + exists s. rewrite Eb. split; [done|].
      unfold final_fs at 1. cbn [fst snd].
      apply for_each_fs_le. intros c s' _. apply Hle.
    + by apply IH.
Qed.

Hypothesis laws : FileSystemLaws Fsys.

Lemma download_file_ret_exists u d h (s : Fsys) :
  result_of (download_file remote u d h s) = Ret tt →
  path_exists (file_local_path d h) (final_fs (download_file remote u d h s)) = true.
Proof.
  rewrite download_file_unfold. cbn zeta.
  destruct (path_exists (file_local_path d h) s) eqn:Hex; [done|].
  destruct (remote u) as [r|]; [|done].
  pose proof (write_creates laws (file_local_path d h) (content r) s) as Hw.
  destruct (write_file (file_local_path d h) (content r) s) as [sw [e|]];
    unfold result_of, final_fs; cbn in *; [done|]. intros _. by apply Hw.
Qed.

(** In a crawl that returns, every file entry of the remote tree is there
    at the end, at the local path of its hrefs. *)
Lemma entries_land fuel : ∀ url outdir (s : Fsys) ds f,
  result_of (download_recursive urljoin remote fuel url outdir s) = Ret tt →
  file_entry urljoin remote url ds f →
  path_exists (local_file_of outdir ds f)
    (final_fs (download_recursive urljoin remote fuel url outdir s)) = true.
Proof.
  induction fuel as [|fuel IH]; intros url outdir s ds f Hret Hent; [done|].
  rewrite download_recursive_unfold in Hret |- *. cbn zeta in *.
  destruct (makedirs outdir s) as [sm [e|]]; cbn [fst snd] in *; [done|].
  set (body := process_link urljoin remote (download_recursive urljoin remote fuel)
                 url outdir) in *.
  assert (∀ b (s' : Fsys), fs_le s' (final_fs (body b s'))) as Hle.
  { intros b s'. apply process_link_fs_le; [done|].
    intros. by apply download_recursive_fs_le. }
  destruct Hent as [url r a f Hr Ha Hf He Hm|url r a h ds f Hr Ha Hh He Hent];
    rewrite Hr in Hret |- *;
    unfold result_of at 1 in Hret; unfold final_fs at 1; cbn [fst snd] in *;
    destruct (for_each_visits body _ a sm Hle Hret Ha) as (s' & Hres & Hfin);
    apply Hfin; unfold body, process_link in Hres |- *; rewrite ?Hf, ?Hh, He in *.
  - rewrite Hm in *. by apply download_file_ret_exists.
  - change (local_file_of outdir (h :: ds) f)
      with (local_file_of (child_local_dir outdir h) ds f).
    by apply IH.
Qed.

End EntryFacts.

Section PathMapping.
Import Sites PosixFs.

(** C6, as stated, fails, in both halves. A directory entry and a file
    entry whose hrefs differ by the trailing separator have different URLs
    and the same local path: on a site that lists both, the directory is
    made first, and the file is then found to exist and is never fetched.
    And the local path is not a function of the URL: a file listed twice,
    by a relative href and by its absolute path, has one URL, and one
    crawl fetches it twice and writes it at two local paths, one of them
    outside the output root. *)
Lemma path_mapping_is_not_injective_nor_keyed_by_url :
  (PyStr.endswith_slash "extent_v4.0.tif/" = true ∧
   PyStr.endswith_slash "extent_v4.0.tif" = false ∧
   Pattern.pattern_match "extent_v4.0.tif" = true ∧
   urljoin_rel root "extent_v4.0.tif/" ≠ urljoin_rel root "extent_v4.0.tif" ∧
   local_dir_of "data" ["extent_v4.0.tif/"] = "data/extent_v4.0.tif" ∧
   local_file_of "data" [] "extent_v4.0.tif" = "data/extent_v4.0.tif" ∧
   site_same_name "http://h/r/extent_v4.0.tif" = Some tif_file ∧
   trace_of (crawl site_same_name 3 empty_fs) =
     [EvMakedirs "data"; EvList "http://h/r/";
      EvMakedirs "data/extent_v4.0.tif"; EvList "http://h/r/extent_v4.0.tif/"] ∧
   result_of (crawl site_same_name 3 empty_fs) = Ret tt ∧
   read_file "data/extent_v4.0.tif" (final_fs (crawl site_same_name 3 empty_fs)) = None) ∧
  (remote_file_of urljoin_host root [] "N_extent_v4.0.tif" = "http://h/r/N_extent_v4.0.tif" ∧
   remote_file_of urljoin_host root [] "/r/N_extent_v4.0.tif" = "http://h/r/N_extent_v4.0.tif" ∧
   local_file_of "data" [] "N_extent_v4.0.tif" = "data/N_extent_v4.0.tif" ∧
   local_file_of "data" [] "/r/N_extent_v4.0.tif" = "/r/N_extent_v4.0.tif" ∧
   trace_of (download_recursive urljoin_host site_two_hrefs 1 root "data" fs_with_r) =
     [EvMakedirs "data"; EvList "http://h/r/";
      EvPrint "http://h/r/N_extent_v4.0.tif"; EvFetch "http://h/r/N_extent_v4.0.tif";
      EvWrite "data/N_extent_v4.0.tif" tif_bytes;
      EvPrint "http://h/r/N_extent_v4.0.tif"; EvFetch "http://h/r/N_extent_v4.0.tif";
      EvWrite "/r/N_extent_v4.0.tif" tif_bytes] ∧
   result_of (download_recursive urljoin_host site_two_hrefs 1 root "data" fs_with_r) =
     Ret tt ∧
   read_file "data/N_extent_v4.0.tif"
     (final_fs (download_recursive urljoin_host site_two_hrefs 1 root "data" fs_with_r)) =
     Some tif_bytes ∧
   read_file "/r/N_extent_v4.0.tif"
     (final_fs (download_recursive urljoin_host site_two_hrefs 1 root "data" fs_with_r)) =
     Some tif_bytes).
Proof. split; repeat split; by vm_compute. Qed.

(** C6, amended. The local path of a file is a function of the output root
    and of the hrefs that lead to its entry, not of its URL.
    (1) Every write of a crawl is the write of a file entry of the remote
    tree, reached from the root through hrefs of anchors of the listings
    delivered on the way: it is at the local path computed from the output
    root and these hrefs, and its bytes are the body served at the URL
    resolved from the root URL through the same hrefs, which the crawl
    fetched.
    (2) Under the file system laws, in every crawl that returns, whatever
    the file system held at the start, every file entry is there at the
    local path of its hrefs; so what one crawl writes at a path, any other
    crawl from the same root with the same output root that returns has at
    that path.
    (3) On a site whose hrefs are plain names, followed by one separator
    for the directories, the mapping is injective: two entries with the
    same local path are the same entry, and two writes at one local path,
    in any two crawls, are writes of the same entry, with the same URL and
    the same bytes. *)
Theorem path_mapping_of_entries
    {Fsys : Type} `{FileSystem Fsys}
    (urljoin : string → string → string) (remote : string → option response)
    (url outdir : string) :
  (∀ fuel (s : Fsys) p b,
     EvWrite p b ∈ trace_of (download_recursive urljoin remote fuel url outdir s) →
     ∃ ds f r,
       file_entry urljoin remote url ds f ∧
       p = local_file_of outdir ds f ∧
       remote (remote_file_of urljoin url ds f) = Some r ∧
       b = content r ∧
       EvFetch (remote_file_of urljoin url ds f)
         ∈ trace_of (download_recursive urljoin remote fuel url outdir s)) ∧
  (FileSystemLaws Fsys →
   (∀ fuel (s : Fsys) ds f,
      result_of (download_recursive urljoin remote fuel url outdir s) = Ret tt →
      file_entry urljoin remote url ds f →
      path_exists (local_file_of outdir ds f)
        (final_fs (download_recursive urljoin remote fuel url outdir s)) = true) ∧
   (∀ fuel1 (s1 : Fsys) fuel2 (s2 : Fsys) p b,
      EvWrite p b ∈ trace_of (download_recursive urljoin remote fuel1 url outdir s1) →
      result_of (download_recursive urljoin remote fuel2 url outdir s2) = Ret tt →
      path_exists p
        (final_fs (download_recursive urljoin remote fuel2 url outdir s2)) = true)) ∧
  (plain_site remote →
   (∀ ds f ds' f',
      file_entry urljoin remote url ds f →
      file_entry urljoin remote url ds' f' →
      local_file_of outdir ds f = local_file_of outdir ds' f' →
      ds = ds' ∧ f = f') ∧
   (∀ fuel1 (s1 : Fsys) fuel2 (s2 : Fsys) p b b',
      EvWrite p b ∈ trace_of (download_recursive urljoin remote fuel1 url outdir s1) →
      EvWrite p b' ∈ trace_of (download_recursive urljoin remote fuel2 url outdir s2) →
      ∃ ds f r,
        file_entry urljoin remote url ds f ∧
        p = local_file_of outdir ds f ∧
        remote (remote_file_of urljoin url ds f) = Some r ∧
        b = content r ∧ b' = content r)).
Proof.
  assert (plain_site remote →
          ∀ ds f ds' f',
            file_entry urljoin remote url ds f →
            file_entry urljoin remote url ds' f' →
            local_file_of outdir ds f = local_file_of outdir ds' f' →
            ds = ds' ∧ f = f') as Hinj.
  { intros Hsite ds f ds' f' He He' Heq.
    destruct (file_entry_plain urljoin remote url ds f Hsite He) as (ns & -> & Hns & Hf).
    destruct (file_entry_plain urljoin remote url ds' f' Hsite He')
      as (ns' & -> & Hns' & Hf').
    destruct (local_file_of_plain_inj outdir ns f ns' f') as [-> ->]; try done;
      by constructor. }
  split; [|split].
  - intros fuel s p b. apply writes_are_entries.
  - intros laws. split.
    + intros fuel s ds f. by apply entries_land.
    + intros fuel1 s1 fuel2 s2 p b Hw Hret.
      destruct (writes_are_entries urljoin remote fuel1 url outdir s1 p b Hw)
        as (ds & f & r & Hent & -> & _).
      by apply entries_land.
  - intros Hsite. split; [by apply Hinj|].
    intros fuel1 s1 fuel2 s2 p b b' Hw Hw'.
    destruct (writes_are_entries urljoin remote fuel1 url outdir s1 p b Hw)
      as (ds & f & r & Hent & Hp & Hr & Hb & _).
    destruct (writes_are_entries urljoin remote fuel2 url outdir s2 p b' Hw')
      as (ds' & f' & r' & Hent' & Hp' & Hr' & Hb' & _).
    destruct (Hinj Hsite ds f ds' f' Hent Hent') as [<- <-]; [congruence|].
    exists ds, f, r. repeat split; try done. congruence.
Qed.

Lemma site_archive_is_plain : plain_site site_archive.
Proof.
  intros u r a h Hr Ha Hh. unfold site_archive, serve in Hr.
  repeat (destruct (String.eqb _ u) in Hr;
          [injection Hr as <-; cbn in Ha;
           repeat (apply elem_of_cons in Ha as [->|Ha];
                   [injection Hh as <-;
                    first [by left
                          |right; by exists "2021"
                          |right; by exists "empty"]|]);
           by apply elem_of_nil in Ha|]).
  done.
Qed.

Lemma path_mapping_of_entries_witness :
  path_exists "data/2021/N_20210101_extent_v4.0.tif"
    (final_fs (crawl site_archive 3 fs_with_tmp)) = true ∧
  ∃ ds f r,
    file_entry urljoin_rel site_archive root ds f ∧
    "data/2021/N_20210101_extent_v4.0.tif" = local_file_of "data" ds f ∧
    site_archive (remote_file_of urljoin_rel root ds f) = Some r ∧
    tif_bytes = content r ∧ tif_bytes = content r.
Proof.
  destruct (path_mapping_of_entries urljoin_rel site_archive root "data")
    as (_ & Hsame & Hplain).
  destruct (Hsame posix_laws) as [_ Hcrawls].
  destruct (Hplain site_archive_is_plain) as [_ Hwrites].
  assert (EvWrite "data/2021/N_20210101_extent_v4.0.tif" tif_bytes
            ∈ trace_of (download_recursive urljoin_rel site_archive 2 root "data"
                          empty_fs)) as Hw.
  { vm_compute. do 6 apply list_elem_of_further. apply list_elem_of_here. }
  split.
  - apply (Hcrawls 2 empty_fs 3 fs_with_tmp _ tif_bytes Hw). by vm_compute.
  - exact (Hwrites 2 empty_fs 2 empty_fs _ tif_bytes tif_bytes Hw Hw).
Defined.

End PathMapping.
